(** * Title-level normalisation of [scripts/gendoc.py]

    A shallow embedding of the routines of [gendoc.py] that carry the
    logic of the build: [load_with_adjusted_titles], [get_rst],
    [build_spec], [fix_relative_titles] and [get_build_target].

    Python values are modelled as follows.
    - A Python 2 [str] is a byte string: [list ascii].
    - A Python [int] is unbounded: [Z].
    - A raised exception is the [Raise] case of [result]; the exceptions
      built with [Exception(...)] keep the values interpolated into their
      message as the fields of [message].
    - A [dict] with integer keys is a [gmap Z _].
    - An open file is the list of its lines, each with its line terminator,
      as iterating over a Python file object yields them. *)

From Stdlib Require Import ZArith Ascii String.
From stdpp Require Import base option list gmap sorting.
From stdpp Require strings.

Local Open Scope Z_scope.

(** ** Strings *)

Definition str : Type := list ascii.

Definition lit (s : string) : str := list_ascii_of_string s.
Arguments lit s%_string.

Definition NL : ascii := "010"%char.

(** [old] is a single character at every call site of [str.replace] in the
    script, so the replacement is a character map. *)
Definition replace (old new : ascii) (s : str) : str :=
  map (λ c, if Ascii.eqb c old then new else c) s.

(** ["".join(lines)] *)
Definition join (lines : list str) : str := concat lines.

(** The lines of a file, as iteration over a file object or
    [file.readlines()] produces them: each line keeps its newline, the last
    line has one only if the file ends with one. *)
Fixpoint readlines (s : str) : list str :=
  match s with
  | [] => []
  | c :: s' =>
      if Ascii.eqb c NL then [c] :: readlines s'
      else match readlines s' with
           | [] => [[c]]
           | l :: ls => (c :: l) :: ls
           end
  end.

(** [s[-2:]] *)
Definition last_two (s : str) : str := drop (length s - 2)%nat s.

(** [l.index(x)]: the first position of [x], [ValueError] when absent. *)
Fixpoint index (l : list ascii) (x : ascii) : option Z :=
  match l with
  | [] => None
  | y :: l' => if Ascii.eqb y x then Some 0 else Z.succ <$> index l' x
  end.

(** [l[i]] with Python's negative subscripts: [IndexError] outside
    [-len(l) .. len(l) - 1]. *)
Definition subscript {A} (l : list A) (i : Z) : option A :=
  if bool_decide (0 ≤ i) then l !! Z.to_nat i
  else if bool_decide (- Z.of_nat (length l) ≤ i)
       then l !! Z.to_nat (Z.of_nat (length l) + i)
       else None.

(** ** The regular expression  [^[<chars>]{3,}$]

    [re.escape] makes every character of [chars] stand for itself inside the
    class.  [re.match] anchors at the start; [$] (without [re.MULTILINE])
    matches at the very end of the string and just before a newline that is
    the last character of the string. *)
Definition in_class (chars : list ascii) (c : ascii) : bool :=
  existsb (Ascii.eqb c) chars.

Definition three_or_more (chars : list ascii) (s : str) : bool :=
  bool_decide (3 ≤ length s)%nat && forallb (in_class chars) s.

Definition before_final_newline (s : str) : option str :=
  match reverse s with
  | c :: r => if Ascii.eqb c NL then Some (reverse r) else None
  | [] => None
  end.

Definition title_regex_match (chars : list ascii) (line : str) : bool :=
  three_or_more chars line
  || match before_final_newline line with
     | Some body => three_or_more chars body
     | None => false
     end.

(** ** Exceptions *)

Inductive message :=
| BadTitleLevel (filename : str) (line_no : Z) (line_title_style : ascii)
                (title_styles : list ascii) (prev_style : ascii)
| SubTitleTooLow (filename : str) (line_no : Z)
| NotTwoNewlines (file_info : str)
| BadFileEntry (entry : str)
| CannotGoLower
| CannotGoHigher
| UnknownRelativeChar (line_char : ascii).

Inductive exn :=
| TypeError            (* len(None) *)
| ValueError           (* list.index on an absent value *)
| IndexError           (* subscript out of range *)
| KeyError             (* dict lookup of an absent key *)
| ReError              (* re.compile of an empty character class *)
| IOError (path : str) (* open() of a missing file *)
| Exception (m : message).

Inductive result (A : Type) :=
| Return (a : A)
| Raise (e : exn).
Arguments Return {A} a.
Arguments Raise {A} e.

Global Instance result_ret : MRet result := λ A a, Return a.
Global Instance result_bind : MBind result := λ A B f r,
  match r with
  | Return a => f a
  | Raise e => Raise e
  end.

Definition from_option {A} (e : exn) (o : option A) : result A :=
  match o with
  | Some a => Return a
  | None => Raise e
  end.

(** ** [load_with_adjusted_titles] *)

(** The local variables that the loop over the file updates. *)
Record locals := Locals {
  prev_line_title_level : Z;
  file_offset : option Z;
  prev_non_title_line : option str;
  rst_lines : list str
}.

Definition initial_locals : locals :=
  {| prev_line_title_level := 0;
     file_offset := None;
     prev_non_title_line := None;
     rst_lines := [] |}.

(** Lines 48-50 and 53-55: the line is kept as it is and becomes the line
    against which the next underline is measured. *)
Definition keep_as_text (line : str) (st : locals) : locals :=
  {| prev_line_title_level := prev_line_title_level st;
     file_offset := file_offset st;
     prev_non_title_line := Some line;
     rst_lines := rst_lines st ++ [line] |}.

Section load_with_adjusted_titles.
Variables (filename : str) (title_level : Z) (title_styles : list ascii).

(** Lines 57-112: the line is a title underline.  The warning printed at
    lines 65-67 goes to standard output and influences nothing else; it is
    not part of the model. *)
Definition adjust_title (i : Z) (line : str) (st : locals) : result locals :=
  line_title_style ← from_option IndexError (head line);
  line_title_level ← from_option ValueError (index title_styles line_title_style);
  let file_offset' := default line_title_level (file_offset st) in
  if bool_decide (prev_line_title_level st - line_title_level < -1) then
    prev_style ← from_option IndexError
                   (subscript title_styles (prev_line_title_level st));
    Raise (Exception (BadTitleLevel filename (i + 1) line_title_style
                                    title_styles prev_style))
  else
    let adjusted_level := title_level + line_title_level - file_offset' in
    if bool_decide (Z.of_nat (length title_styles) ≤ adjusted_level) then
      Raise (Exception (SubTitleTooLow filename (i + 1)))
    else if bool_decide (adjusted_level = line_title_level) then
      Return {| prev_line_title_level := line_title_level;
                file_offset := Some file_offset';
                prev_non_title_line := prev_non_title_line st;
                rst_lines := rst_lines st ++ [line] |}
    else
      new_style ← from_option IndexError (subscript title_styles adjusted_level);
      Return {| prev_line_title_level := line_title_level;
                file_offset := Some file_offset';
                prev_non_title_line := prev_non_title_line st;
                rst_lines := rst_lines st ++ [replace line_title_style new_style line] |}.

(** The body of the [for] loop, lines 46-112. *)
Definition loop_body (i : Z) (line : str) (st : locals) : result locals :=
  if negb (title_regex_match title_styles line) then
    Return (keep_as_text line st)
  else
    prev ← from_option TypeError (prev_non_title_line st);
    if bool_decide (length line < length prev)%nat then
      Return (keep_as_text line st)
    else adjust_title i line st.

(** [for i, line in enumerate(file_stream, 1)], entered at index [i]. *)
Fixpoint for_lines (i : Z) (file_stream : list str) (st : locals)
  : result locals :=
  match file_stream with
  | [] => Return st
  | line :: rest => st' ← loop_body i line st; for_lines (i + 1) rest st'
  end.

(** [re.compile] rejects the pattern when the class is empty. *)
Definition load_with_adjusted_titles (file_stream : list str) : result str :=
  if title_styles is [] then Raise ReError
  else st ← for_lines 1 file_stream initial_locals; Return (join (rst_lines st)).
End load_with_adjusted_titles.

(** ** [get_rst] *)

(** A [files] entry of [targets.yaml] once loaded: a string, a dict keyed by
    title level, a list, or any other YAML value (kept as its [%s]
    rendering, which is all the script does with it). *)
#[warning="-register-all"]
Inductive file_info :=
| Basestring (path : str)
| Dict (d : gmap Z file_info)
| List (l : list file_info)
| Other (rendering : str).

Section get_rst.
(** [fs] is the content of each readable file, by path. *)
Variables (fs : str → option str)
          (title_styles : list ascii) (spec_dir : str) (adjust_titles : bool).

(** Lines 119-134. *)
Definition get_rst_file (path : str) (title_level : Z) : result str :=
  content ← from_option (IOError (spec_dir ++ path)) (fs (spec_dir ++ path));
  rst ← (if adjust_titles
         then load_with_adjusted_titles path title_level title_styles
                (readlines content)
         else Return content);
  if bool_decide (last_two rst ≠ [NL; NL])
  then Raise (Exception (NotTwoNewlines path))
  else Return rst.

(** [sorted(file_info.keys())] *)
Definition sorted_keys {A} (d : gmap Z A) : list Z :=
  merge_sort Z.le (map_to_list d).*1.

(** In the [Dict] case the recursive calls are taken under the map, so
    that the recursion is structural: [sub !! l] applied to [l] is
    [get_rst(file_info[l], l, ...)]. *)
Fixpoint get_rst (file_info : file_info) (title_level : Z) : result str :=
  match file_info with
  | Basestring path => get_rst_file path title_level
  | Dict d =>
      let levels := sorted_keys d in
      let sub : gmap Z (Z → result str) := get_rst <$> d in
      rst ← mapM (λ l, match sub !! l with
                       | Some call => call l
                       | None => Raise KeyError
                       end) levels;
      Return (join rst)
  | List l =>
      rst ← mapM (λ f, get_rst f title_level) l;
      Return (join rst)
  | Other rendering => Raise (Exception (BadFileEntry rendering))
  end.
End get_rst.

(** ** [fix_relative_titles] *)

Record relative_styles := RelativeStyles {
  subtitle : ascii;
  sametitle : ascii;
  supertitle : ascii
}.

(** The two entries of a build target that [fix_relative_titles] reads. *)
Record target := Target {
  title_styles : list ascii;
  relative_title_styles : relative_styles
}.

Section fix_relative_titles.
Variable (tgt : target).

Definition relative_title_chars : list ascii :=
  [subtitle (relative_title_styles tgt);
   sametitle (relative_title_styles tgt);
   supertitle (relative_title_styles tgt)].

(** Lines 199-225: the replacement of one relative title line. *)
Definition fix_relative_line (current_title_style : option ascii) (line : str)
  : result str :=
  line_char ← from_option IndexError (head line);
  current_title_level ←
    from_option ValueError (current_title_style ≫= index (title_styles tgt));
  replacement_char ←
    (if Ascii.eqb line_char (subtitle (relative_title_styles tgt)) then
       if bool_decide (current_title_level + 1
                       = Z.of_nat (length (title_styles tgt)))
       then Raise (Exception CannotGoLower)
       else from_option IndexError
              (subscript (title_styles tgt) (current_title_level + 1))
     else if Ascii.eqb line_char (sametitle (relative_title_styles tgt)) then
       from_option IndexError (subscript (title_styles tgt) current_title_level)
     else if Ascii.eqb line_char (supertitle (relative_title_styles tgt)) then
       if bool_decide (current_title_level - 1 < 0)
       then Raise (Exception CannotGoHigher)
       else from_option IndexError
              (subscript (title_styles tgt) (current_title_level - 1))
     else Raise (Exception (UnknownRelativeChar line_char)));
  Return (replace line_char replacement_char line).

(** The loop of lines 193-225 over the lines still to read; the result is
    what is written to the output file from here on. *)
Fixpoint fix_lines (current_title_style : option ascii) (lines : list str)
  : result (list str) :=
  match lines with
  | [] => Return []
  | line :: rest =>
      if negb (title_regex_match relative_title_chars line) then
        let current_title_style' :=
          if title_regex_match (title_styles tgt) line
          then head line else current_title_style in
        out ← fix_lines current_title_style' rest;
        Return (line :: out)
      else
        line' ← fix_relative_line current_title_style line;
        out ← fix_lines current_title_style rest;
        Return (line' :: out)
  end.

(** [infile] is the content of the input file; the result is the content
    of the output file. *)
Definition fix_relative_titles (infile : str) : result str :=
  if title_styles tgt is [] then Raise ReError
  else out ← fix_lines None (readlines infile); Return (join out).
End fix_relative_titles.

(** ** Sample inputs *)

(** A line of a file, written without its terminator. *)
Definition ln (s : string) : str := lit s ++ [NL].
Arguments ln s%_string.

(** The style table and the relative styles of the script's comments. *)
Definition styles4 : list ascii := ["="; "-"; "~"; "+"]%char.

Definition rel3 : relative_styles :=
  {| subtitle := "<"; sametitle := "/"; supertitle := ">" |}%char.

(** A specification directory with two files. *)
Definition two_files (path : str) : option str :=
  if bool_decide (path = lit "spec/a.rst")
  then Some (join [ln "Alpha"; ln "====="; [NL]])
  else if bool_decide (path = lit "spec/b.rst")
       then Some (join [ln "Beta"; ln "===="; [NL]])
       else None.

(** A specification directory whose first file starts with a title in the
    second style and goes up to the first style. *)
Definition sub_first_files (path : str) : option str :=
  if bool_decide (path = lit "spec/a.rst")
  then Some (join [ln "Sub"; ln "---"; ln "Top"; ln "==="; [NL]])
  else if bool_decide (path = lit "spec/b.rst")
       then Some (join [ln "Beta"; ln "===="; [NL]])
       else None.

(** * The vocabulary of the properties *)

(** What the pattern accepts, in words: at least three characters, each of
    them one of [chars], then nothing or one final newline. *)
Definition marker_line (chars : list ascii) (line : str) : Prop :=
  ∃ body, (line = body ∨ line = body ++ [NL])
          ∧ (3 ≤ length body)%nat ∧ Forall (λ c, c ∈ chars) body.

(** The line reaches line 57 in state [st]: it matches the pattern and is at
    least as long as the last line kept as text. *)
Definition is_title_underline (styles : list ascii) (st : locals) (line : str)
  : Prop :=
  title_regex_match styles line = true
  ∧ ∃ prev, prev_non_title_line st = Some prev ∧ (length prev ≤ length line)%nat.

(** [title_styles.index(line[0])] *)
Definition local_level (styles : list ascii) (line : str) : option Z :=
  head line ≫= index styles.

(** What lines 63-64 leave in [file_offset] at a title of level [j]. *)
Definition offset_at (st : locals) (j : Z) : Z := default j (file_offset st).

(** The invariant of the scan: the recorded levels are positions in the
    style table, and the file offset, set by the first title, is 0 or 1,
    since the first title is checked against the initial
    [prev_line_title_level = 0]. *)
Definition locals_ok (styles : list ascii) (st : locals) : Prop :=
  0 ≤ prev_line_title_level st
  ∧ (prev_line_title_level st = 0 ∨
     prev_line_title_level st < Z.of_nat (length styles))
  ∧ (file_offset st = None → prev_line_title_level st = 0)
  ∧ ∀ k, file_offset st = Some k → 0 ≤ k ≤ 1 ∧ k < Z.of_nat (length styles).

(** The spec's wording of a heading line: one marker character, repeated at
    least three times (the line terminator aside). *)
Definition one_repeated_marker (styles : list ascii) (line : str) : Prop :=
  ∃ c n, c ∈ styles ∧ (3 ≤ n)%nat
         ∧ (line = replicate n c ∨ line = replicate n c ++ [NL]).

(** The spec's wording of the fragment invariant: the content ends with
    exactly two newline characters. *)
Definition ends_with_exactly_two_newlines (s : str) : Prop :=
  ∃ body, s = body ++ [NL; NL] ∧ last body ≠ Some NL.

(** A line that sets [current_title_style]: it does not match the relative
    pattern and matches the pattern of the style table. *)
Definition is_absolute_title (tgt : target) (line : str) : bool :=
  negb (title_regex_match (relative_title_chars tgt) line)
  && title_regex_match (title_styles tgt) line.

(** The style of the most recently seen absolute title among the lines
    [seen], [cur] when there is none. *)
Definition most_recent_title_style (tgt : target) (cur : option ascii)
    (seen : list str) : option ascii :=
  match last (filter (λ line, is_absolute_title tgt line = true) seen) with
  | Some line => head line
  | None => cur
  end.

(** The test of lines 47 and 52 on a line, [prev] being the last line kept
    as text. *)
Definition underlines (styles : list ascii) (prev line : str) : bool :=
  title_regex_match styles line && bool_decide (length prev ≤ length line)%nat.

(** For each line after the text line [prev]: its local title level when
    it is a title underline, [None] when it is text.  This depends on the
    lines and the style table only. *)
Fixpoint line_levels (styles : list ascii) (prev : str) (lines : list str)
  : list (option Z) :=
  match lines with
  | [] => []
  | line :: rest =>
      if underlines styles prev line
      then local_level styles line :: line_levels styles prev rest
      else None :: line_levels styles line rest
  end.

(** The local levels of the titles, in file order. *)
Definition title_levels (styles : list ascii) (prev : str) (lines : list str)
  : list Z :=
  omap id (line_levels styles prev lines).

(** The nesting rule of line 72 along a sequence of title levels, [prev]
    being the level before the first of them: a title is at most one level
    below the one before it. *)
Fixpoint descent_ok (prev : Z) (levels : list Z) : Prop :=
  match levels with
  | [] => True
  | j :: rest => j ≤ prev + 1 ∧ descent_ok j rest
  end.

(** The line with every occurrence of its first character replaced by the
    style at subscript [a] of the table. *)
Definition restyle (styles : list ascii) (a : Z) (line : str) : str :=
  match head line with
  | Some c => replace c (default c (subscript styles a)) line
  | None => line
  end.

(** The spec's transform of a fragment: every title of local level [j]
    is restyled to [target_level + j - k] for one constant [k], every
    other line is kept. *)
Fixpoint adjusted_lines (styles : list ascii) (target_level k : Z)
    (prev : str) (lines : list str) : list str :=
  match lines with
  | [] => []
  | line :: rest =>
      if underlines styles prev line
      then restyle styles
             (target_level + default 0 (local_level styles line) - k) line
           :: adjusted_lines styles target_level k prev rest
      else line :: adjusted_lines styles target_level k line rest
  end.

(** [k] is the file offset in force along titles of levels [levels]: the
    one already set, or else the level of the first title to come. *)
Definition offset_agrees (st : locals) (levels : list Z) (k : Z) : Prop :=
  match file_offset st with
  | Some k' => k' = k
  | None => match levels with [] => True | j :: _ => j = k end
  end.

(** The position in a table of [len] entries that the Python subscript [a]
    designates. *)
Definition position (len : nat) (a : Z) : Z :=
  if bool_decide (0 ≤ a) then a else Z.of_nat len + a.

(** A line that ends with the only newline it contains. *)
Definition terminated (l : str) : Prop := ∃ body, l = body ++ [NL] ∧ NL ∉ body.

(** A non-empty line without newline: the last line of a file that does not
    end with a newline. *)
Definition unterminated (l : str) : Prop := l ≠ [] ∧ NL ∉ l.

(** The lists of lines that reading a file can produce. *)
Fixpoint file_lines (ls : list str) : Prop :=
  match ls with
  | [] => True
  | l :: ls' =>
      match ls' with
      | [] => terminated l ∨ unterminated l
      | _ :: _ => terminated l ∧ file_lines ls'
      end
  end.

(** The title levels of a text, read line by line as the script does, for
    a text that does not start with a marker line (its first line is then
    text). *)
Definition text_title_levels (styles : list ascii) (text : str) : list Z :=
  match readlines text with
  | [] => []
  | first :: rest => title_levels styles first rest
  end.

(** ** Whole files *)

(** The local levels of the titles of a whole file, given as its lines; the
    first line is text. *)
Definition file_title_levels (styles : list ascii) (lines : list str)
  : list Z :=
  match lines with
  | [] => []
  | first :: rest => title_levels styles first rest
  end.

(** Two characters are the same, or both are styles of the table. *)
Definition same_or_styles (styles : list ascii) (c c' : ascii) : Prop :=
  c = c' ∨ (c ∈ styles ∧ c' ∈ styles).

(** ** Lines written by [fix_relative_titles] *)

(** How a line written relates to the line read: a relative title line has
    its first character replaced, throughout, by a style of the table; any
    other line is written as it is. *)
Definition fixed_line (tgt : target) (line line' : str) : Prop :=
  if title_regex_match (relative_title_chars tgt) line
  then ∃ r c', head line = Some r ∧ r ∈ relative_title_chars tgt
               ∧ c' ∈ title_styles tgt ∧ line' = replace r c' line
  else line' = line.

(** ** Entries of the [files] tree *)

(** The nesting depth of an entry. *)
Fixpoint depth (f : file_info) : nat :=
  match f with
  | Basestring _ => 0
  | Dict d => S (max_list (map_to_list (depth <$> d)).*2)
  | List l => S (max_list (depth <$> l))
  | Other _ => 0
  end.

(** The file paths that an entry names. *)
Fixpoint paths (f : file_info) : list str :=
  match f with
  | Basestring path => [path]
  | Dict d => concat (map_to_list (paths <$> d)).*2
  | List l => concat (paths <$> l)
  | Other _ => []
  end.

(** The entries inside an entry, itself included, that are neither a
    string, a list nor a dict, by their rendering. *)
Fixpoint bad_entries (f : file_info) : list str :=
  match f with
  | Basestring _ => []
  | Dict d => concat (map_to_list (bad_entries <$> d)).*2
  | List l => concat (bad_entries <$> l)
  | Other rendering => [rendering]
  end.

(** A text that is empty or ends with two newlines. *)
Definition ends_with_blank_line (text : str) : Prop :=
  text = [] ∨ ∃ body, text = body ++ [NL; NL].

(** ** [build_spec] *)

(** A build target as [get_build_target] returns it: the two entries that
    [fix_relative_titles] reads, and the [files] list. *)
Record build_target := BuildTarget {
  entries : target;
  files : list file_info
}.

Section build_spec.
Variable (fs : str → option str).

(** The loop of lines 156-164; [outfile] is what has been written so far.
    The result is the content of the output file when the loop ends, and
    the exception that ended it, if any. *)
Fixpoint write_sections (title_styles : list ascii) (files : list file_info)
    (outfile : str) : str * option exn :=
  match files with
  | [] => (outfile, None)
  | file_info :: rest =>
      match get_rst fs title_styles (lit "../specification/") true file_info 0
      with
      | Return section => write_sections title_styles rest (outfile ++ section)
      | Raise e => (outfile, Some e)
      end
  end.

(** The output file is opened for writing, hence empty, and is taken to be
    writable. *)
Definition build_spec (t : build_target) : str * option exn :=
  write_sections (title_styles (entries t)) (files t) [].
End build_spec.

(** ** [get_build_target] *)

(** The three exceptions of [get_build_target], with the values put in
    their messages. *)
Inductive config_error :=
| NoTarget (target_name targets_listing : str)
| FilesNotAList
| NoGroup (group_name : str).

Inductive checked (A : Type) :=
| Good (a : A)
| Bad (e : config_error).
Arguments Good {A} a.
Arguments Bad {A} e.

Global Instance checked_ret : MRet checked := λ A a, Good a.
Global Instance checked_bind : MBind checked := λ A B f r,
  match r with
  | Good a => f a
  | Bad e => Bad e
  end.

(** [targets.yaml] once loaded by [yaml.load]: the two style entries, the
    [targets] dict, whose values are dicts keyed by strings, and the
    [groups] dict, empty when the file has none
    ([all_targets.get("groups", {})]).  The values are strings, lists,
    dicts keyed by numbers, or other YAML values, as for [file_info]. *)
Record targets_yaml := TargetsYaml {
  yaml_title_styles : list ascii;
  yaml_relative_title_styles : relative_styles;
  yaml_targets : gmap str (gmap str file_info);
  yaml_groups : gmap str file_info
}.

(** [f.startswith("group:")] and [group_id[len("group:"):]] *)
Definition is_group_id (s : str) : bool :=
  bool_decide (take 6 s = lit "group:").

Definition group_name_of (group_id : str) : str := drop 6 group_id.

Section get_build_target.
(** [other_truth] is the truth value of a YAML value that is neither a
    string, a list nor a dict, found from its rendering (false for [None],
    [False] and zero).  [iteritems] is the order in which Python goes
    through the items of a dict. *)
Variables (other_truth : str → bool)
          (iteritems : gmap Z file_info → list (Z * file_info)).
Variable (all_targets : targets_yaml).

(** The truth value of a loaded value, as [if group] and [if not group]
    take it. *)
Definition truth (v : file_info) : bool :=
  match v with
  | Basestring s => match s with [] => false | _ :: _ => true end
  | Dict d => match map_to_list d with [] => false | _ :: _ => true end
  | List l => match l with [] => false | _ :: _ => true end
  | Other rendering => other_truth rendering
  end.

(** Lines 283-291. *)
Definition get_group (group_id : str) : checked file_info :=
  let group_name := group_name_of group_id in
  match yaml_groups all_targets !! group_name with
  | Some group => if truth group then Good group else Bad (NoGroup group_name)
  | None => Bad (NoGroup group_name)
  end.

(** Lines 299-301: the items of the dict [f] are gone through, and [f] is
    updated in place. *)
Fixpoint resolve_items (items : list (Z * file_info)) (f : gmap Z file_info)
  : checked (gmap Z file_info) :=
  match items with
  | [] => Good f
  | (k, v) :: rest =>
      match v with
      | Basestring s =>
          if is_group_id s
          then group ← get_group s; resolve_items rest (<[k := group]> f)
          else resolve_items rest f
      | _ => resolve_items rest f
      end
  end.

(** Lines 294-311: the loop over [target["files"]]. *)
Fixpoint resolve_files (files resolved_files : list file_info)
  : checked (list file_info) :=
  match files with
  | [] => Good resolved_files
  | f :: rest =>
      match f with
      | Basestring s =>
          if is_group_id s then
            group ← get_group s;
            if truth group then
              match group with
              | List items => resolve_files rest (resolved_files ++ items)
              | _ => resolve_files rest (resolved_files ++ [group])
              end
            else resolve_files rest (resolved_files ++ [f])
          else resolve_files rest (resolved_files ++ [f])
      | Dict d =>
          d' ← resolve_items (iteritems d) d;
          resolve_files rest (resolved_files ++ [Dict d'])
      | _ => resolve_files rest (resolved_files ++ [f])
      end
  end.

(** [targets_listing] is the name of the file that was loaded; it is only
    put in a message. *)
Definition get_build_target (targets_listing target_name : str)
  : checked build_target :=
  match yaml_targets all_targets !! target_name with
  | None => Bad (NoTarget target_name targets_listing)
  | Some target =>
      if bool_decide (size target = 0%nat)
      then Bad (NoTarget target_name targets_listing)
      else match target !! lit "files" with
           | Some (List files) =>
               resolved_files ← resolve_files files [];
               Good {| entries :=
                         {| title_styles := yaml_title_styles all_targets;
                            relative_title_styles :=
                              yaml_relative_title_styles all_targets |};
                       files := resolved_files |}
           | _ => Bad FilesNotAList
           end
  end.

(** The group that a group id names, when there is one that is true. *)
Definition group_of (group_id : str) : option file_info :=
  match yaml_groups all_targets !! group_name_of group_id with
  | Some group => if truth group then Some group else None
  | None => None
  end.

(** A dict value once resolved. *)
Definition resolved_value (v : file_info) : file_info :=
  match v with
  | Basestring s => if is_group_id s then default v (group_of s) else v
  | _ => v
  end.

(** What one entry of [files] contributes to the resolved list. *)
Definition expansion (f : file_info) : list file_info :=
  match f with
  | Basestring s =>
      if is_group_id s
      then match group_of s with
           | Some (List items) => items
           | Some group => [group]
           | None => [f]
           end
      else [f]
  | Dict d => [Dict (resolved_value <$> d)]
  | _ => [f]
  end.
End get_build_target.

(** The group id that a value is, if it is one. *)
Definition group_id_of (v : file_info) : option str :=
  match v with
  | Basestring s => if is_group_id s then Some s else None
  | _ => None
  end.

(** The group ids that [get_build_target] looks up for an entry of
    [files]: the entry itself, or the values of the entry when it is a
    dict. *)
Definition group_ids (f : file_info) : list str :=
  match f with
  | Dict d => omap group_id_of (map_to_list d).*2
  | _ => option_list (group_id_of f)
  end.

(** A [targets.yaml] with one target and two groups. *)
Definition sample_yaml : targets_yaml :=
  {| yaml_title_styles := styles4;
     yaml_relative_title_styles := rel3;
     yaml_targets :=
       {[ lit "main" :=
            {[ lit "files" :=
                 List [Basestring (lit "intro.rst");
                       Basestring (lit "group:apis");
                       Dict {[ 1 := Basestring (lit "group:events") ]}] ]} ]};
     yaml_groups :=
       {[ lit "apis" := List [Basestring (lit "a.rst"); Basestring (lit "b.rst")];
          lit "events" := Basestring (lit "events.rst");
          lit "empty" := List [] ]} |}.

(** A [targets.yaml] whose target refers to a group that is an empty
    list. *)
Definition empty_group_yaml : targets_yaml :=
  {| yaml_title_styles := styles4;
     yaml_relative_title_styles := rel3;
     yaml_targets :=
       {[ lit "main" :=
            {[ lit "files" := List [Basestring (lit "group:empty")] ]} ]};
     yaml_groups := {[ lit "empty" := List [] ]} |}.

(** A [targets.yaml] without groups; the group id inside the inner list is
    not one that [get_build_target] looks at. *)
Definition no_group_yaml : targets_yaml :=
  {| yaml_title_styles := styles4;
     yaml_relative_title_styles := rel3;
     yaml_targets :=
       {[ lit "main" :=
            {[ lit "files" :=
                 List [Basestring (lit "intro.rst");
                       List [Basestring (lit "group:apis")]] ]} ]};
     yaml_groups := ∅ |}.

(** * Properties *)

Lemma styles4_NoDup : NoDup styles4.
Proof.
  repeat constructor; rewrite ?elem_of_cons, elem_of_nil;
    intros Hin; repeat destruct Hin as [Hin|Hin]; done.
Qed.

Lemma styles4_no_NL : NL ∉ styles4.
Proof.
  unfold styles4. intros Hin. rewrite !elem_of_cons, elem_of_nil in Hin.
  repeat destruct Hin as [Hin|Hin]; done.
Qed.

(** ** Characters, subscripts and [index] *)

Lemma in_class_true chars c : in_class chars c = true ↔ c ∈ chars.
Proof.
  unfold in_class. rewrite existsb_exists. split.
  - intros (x & Hx & Heq). apply Ascii.eqb_eq in Heq. subst.
    by apply list_elem_of_In.
  - intros Hc. exists c. split; [by apply list_elem_of_In | apply Ascii.eqb_refl].
Qed.

Lemma forallb_in_class chars s :
  forallb (in_class chars) s = true ↔ Forall (λ c, c ∈ chars) s.
Proof.
  rewrite forallb_forall, Forall_forall. split.
  - intros H c Hc. apply in_class_true, H. by apply list_elem_of_In.
  - intros H c Hc. apply in_class_true, H. by apply list_elem_of_In.
Qed.

Lemma index_range l c j :
  index l c = Some j → 0 ≤ j < Z.of_nat (length l) ∧ l !! Z.to_nat j = Some c.
Proof.
  revert j. induction l as [|y l IH]; intros j; simpl; [done|].
  destruct (Ascii.eqb_spec y c) as [->|Hne].
  - intros [= <-]. split; [lia | done].
  - destruct (index l c) as [j'|] eqn:Hj; simpl; [|done].
    intros [= <-]. destruct (IH j' eq_refl) as [Hr Hl]. split; [lia|].
    replace (Z.to_nat (Z.succ j')) with (S (Z.to_nat j')) by lia. done.
Qed.

Lemma index_elem_of l c : c ∈ l → is_Some (index l c).
Proof.
  induction l as [|y l IH]; [by intros ?%elem_of_nil|].
  intros Hc. simpl. destruct (Ascii.eqb_spec y c) as [->|Hne]; [by eexists|].
  apply elem_of_cons in Hc as [->|Hc]; [done|].
  destruct (IH Hc) as [j ->]. by eexists.
Qed.

Lemma index_lookup_NoDup l (n : nat) c :
  NoDup l → l !! n = Some c → index l c = Some (Z.of_nat n).
Proof.
  revert n. induction l as [|y l IH]; intros n Hnd Hl; [done|].
  apply NoDup_cons in Hnd as [Hy Hnd]. simpl.
  destruct n as [|n]; simpl in Hl.
  - injection Hl as ->. by rewrite Ascii.eqb_refl.
  - destruct (Ascii.eqb_spec y c) as [->|Hne].
    + exfalso. apply Hy. by eapply list_elem_of_lookup_2.
    + rewrite (IH n Hnd Hl). simpl. f_equal. lia.
Qed.

Lemma subscript_nonneg {A} (l : list A) (i : Z) :
  0 ≤ i → subscript l i = l !! Z.to_nat i.
Proof. intros. unfold subscript. by rewrite bool_decide_eq_true_2. Qed.


Lemma subscript_index l c j : index l c = Some j → subscript l j = Some c.
Proof.
  intros [Hr Hl]%index_range. by rewrite subscript_nonneg by lia.
Qed.

(** ** The regular expression *)

Lemma three_or_more_true chars s :
  three_or_more chars s = true
  ↔ (3 ≤ length s)%nat ∧ Forall (λ c, c ∈ chars) s.
Proof.
  unfold three_or_more.
  by rewrite andb_true_iff, bool_decide_eq_true, forallb_in_class.
Qed.

Lemma before_final_newline_Some s body :
  before_final_newline s = Some body ↔ s = body ++ [NL].
Proof.
  unfold before_final_newline. split.
  - destruct (reverse s) as [|c r] eqn:Hr; [done|].
    destruct (Ascii.eqb_spec c NL) as [->|]; [|done].
    intros [= <-]. apply (inj reverse).
    by rewrite Hr, reverse_app, reverse_involutive.
  - intros ->. rewrite reverse_app. simpl.
    by rewrite reverse_involutive.
Qed.

Lemma title_regex_match_true chars line :
  title_regex_match chars line = true ↔ marker_line chars line.
Proof.
  unfold title_regex_match, marker_line. rewrite orb_true_iff. split.
  - intros [H|H].
    + destruct (proj1 (three_or_more_true _ _) H). exists line; naive_solver.
    + destruct (before_final_newline line) as [body|] eqn:Hb; [|done].
      apply before_final_newline_Some in Hb.
      destruct (proj1 (three_or_more_true _ _) H). exists body; naive_solver.
  - intros (body & [->| ->] & Hlen & Hall).
    + left. by apply three_or_more_true.
    + right.
      assert (before_final_newline (body ++ [NL]) = Some body) as ->
        by by apply before_final_newline_Some.
      by apply three_or_more_true.
Qed.

Lemma title_regex_match_head chars line :
  title_regex_match chars line = true →
  ∃ c, head line = Some c ∧ c ∈ chars.
Proof.
  intros (body & Hline & Hlen & Hall)%title_regex_match_true.
  destruct body as [|c body]; [simpl in Hlen; lia|].
  apply Forall_cons in Hall as [Hc _].
  exists c. by destruct Hline as [-> | ->].
Qed.

Lemma title_regex_match_nil line : title_regex_match [] line = false.
Proof.
  apply not_true_is_false. intros (c & _ & Hc)%title_regex_match_head.
  by apply elem_of_nil in Hc.
Qed.

(** The local title level of a line is defined as soon as the line matches
    the pattern. *)
Lemma title_regex_match_level chars line :
  title_regex_match chars line = true →
  ∃ c j, head line = Some c ∧ index chars c = Some j.
Proof.
  intros (c & Hc & Hin)%title_regex_match_head.
  destruct (index_elem_of _ _ Hin) as [j Hj]. by exists c, j.
Qed.

(** ** The scan of [load_with_adjusted_titles] *)

Section scan.
Context (filename : str) (title_level : Z) (styles : list ascii).

Local Abbreviation adjust := (adjust_title filename title_level styles).
Local Abbreviation step := (loop_body filename title_level styles).
Local Abbreviation scan := (for_lines filename title_level styles).
Local Abbreviation load := (load_with_adjusted_titles filename title_level styles).

Lemma for_lines_app i l1 l2 st :
  scan i (l1 ++ l2) st
  = st' ← scan i l1 st; scan (i + Z.of_nat (length l1)) l2 st'.
Proof.
  revert i st. induction l1 as [|line l1 IH]; intros i st; simpl.
  - by replace (i + Z.of_nat 0) with i by lia.
  - destruct (step i line st) as [st'|e]; simpl; [|done].
    rewrite IH.
    by replace (i + 1 + Z.of_nat (length l1))
      with (i + Z.of_nat (S (length l1))) by lia.
Qed.

(** Scanning one more line after a prefix that went through. *)
Lemma for_lines_snoc pre line st :
  scan 1 pre initial_locals = Return st →
  scan 1 (pre ++ [line]) initial_locals
  = step (Z.of_nat (length pre) + 1) line st.
Proof.
  intros Hpre. rewrite for_lines_app, Hpre. simpl.
  replace (1 + Z.of_nat (length pre)) with (Z.of_nat (length pre) + 1) by lia.
  by destruct (step _ line st).
Qed.

Lemma for_lines_raise pre line post st e :
  scan 1 pre initial_locals = Return st →
  step (Z.of_nat (length pre) + 1) line st = Raise e →
  scan 1 (pre ++ line :: post) initial_locals = Raise e.
Proof.
  intros Hpre He. rewrite for_lines_app, Hpre. simpl.
  replace (1 + Z.of_nat (length pre)) with (Z.of_nat (length pre) + 1) by lia.
  by rewrite He.
Qed.

Lemma load_for_lines lines :
  styles ≠ [] →
  load lines = st ← scan 1 lines initial_locals; Return (join (rst_lines st)).
Proof. unfold load_with_adjusted_titles. by destruct styles. Qed.

Lemma loop_body_text line i st :
  title_regex_match styles line = false →
  step i line st = Return (keep_as_text line st).
Proof. intros H. unfold loop_body. by rewrite H. Qed.

Lemma loop_body_short line i st prev :
  prev_non_title_line st = Some prev → (length line < length prev)%nat →
  step i line st = Return (keep_as_text line st).
Proof.
  intros Hp Hlen. unfold loop_body. rewrite Hp. simpl.
  rewrite bool_decide_eq_true_2 by done. by destruct (negb _).
Qed.

Lemma loop_body_title line i st :
  is_title_underline styles st line →
  step i line st = adjust i line st.
Proof.
  intros (Hm & prev & Hp & Hlen). unfold loop_body.
  rewrite Hm, Hp. simpl. by rewrite bool_decide_eq_false_2 by lia.
Qed.

(** The three outcomes of lines 57-112 at a title of local level [j]. *)
Lemma adjust_title_descent line i st c j :
  head line = Some c → index styles c = Some j →
  prev_line_title_level st + 1 < j →
  adjust i line st
  = (prev_style ← from_option IndexError
                    (subscript styles (prev_line_title_level st));
     Raise (Exception (BadTitleLevel filename (i + 1) c styles prev_style))).
Proof.
  intros Hc Hj Hlt. unfold adjust_title. rewrite Hc. simpl.
  rewrite Hj. simpl. by rewrite bool_decide_eq_true_2 by lia.
Qed.

Lemma adjust_title_exhausted line i st c j :
  head line = Some c → index styles c = Some j →
  j ≤ prev_line_title_level st + 1 →
  Z.of_nat (length styles) ≤ title_level + j - offset_at st j →
  adjust i line st = Raise (Exception (SubTitleTooLow filename (i + 1))).
Proof.
  intros Hc Hj Hle Hex. unfold adjust_title. rewrite Hc. simpl.
  rewrite Hj. simpl. rewrite bool_decide_eq_false_2 by lia.
  by rewrite bool_decide_eq_true_2 by done.
Qed.

Lemma adjust_title_rewrite line i st c j :
  head line = Some c → index styles c = Some j →
  j ≤ prev_line_title_level st + 1 →
  title_level + j - offset_at st j < Z.of_nat (length styles) →
  adjust i line st
  = (line' ← (if bool_decide (title_level + j - offset_at st j = j)
              then Return line
              else c' ← from_option IndexError
                          (subscript styles (title_level + j - offset_at st j));
                   Return (replace c c' line));
     Return {| prev_line_title_level := j;
               file_offset := Some (offset_at st j);
               prev_non_title_line := prev_non_title_line st;
               rst_lines := rst_lines st ++ [line'] |}).
Proof.
  intros Hc Hj Hle Hex. unfold adjust_title. rewrite Hc. simpl.
  rewrite Hj. simpl. rewrite bool_decide_eq_false_2 by lia.
  rewrite bool_decide_eq_false_2 by (unfold offset_at in Hex; lia).
  fold (offset_at st j). case_bool_decide; [done|].
  by destruct (subscript styles _).
Qed.

Lemma initial_locals_ok : locals_ok styles initial_locals.
Proof. unfold locals_ok. simpl. split_and!; [lia | lia | done | done]. Qed.

Lemma adjust_title_ok line i st st' :
  locals_ok styles st → adjust i line st = Return st' → locals_ok styles st'.
Proof.
  intros (Hp0 & Hp & Hnone & Hk). unfold adjust_title.
  destruct (head line) as [c|]; simpl; [|done].
  destruct (index styles c) as [j|] eqn:Hj; simpl; [|done].
  apply index_range in Hj as [Hj _].
  case_bool_decide as Hd.
  { by destruct (subscript styles _). }
  assert (0 ≤ default j (file_offset st) ≤ 1
          ∧ default j (file_offset st) < Z.of_nat (length styles)) as Hoff.
  { destruct (file_offset st) as [k|] eqn:Hfo; simpl; [by apply Hk|].
    rewrite Hnone in Hd by done. lia. }
  case_bool_decide; [done|].
  case_bool_decide.
  - intros [= <-]. unfold locals_ok. simpl.
    split_and!; [lia | lia | done | intros ? [= <-]; lia].
  - destruct (subscript styles _); simpl; [|done].
    intros [= <-]. unfold locals_ok. simpl.
    split_and!; [lia | lia | done | intros ? [= <-]; lia].
Qed.

Lemma loop_body_ok line i st st' :
  locals_ok styles st → step i line st = Return st' → locals_ok styles st'.
Proof.
  intros Hok. unfold loop_body.
  destruct (negb _); [by intros [= <-]|].
  destruct (prev_non_title_line st); simpl; [|done].
  case_bool_decide; [by intros [= <-]|]. by apply adjust_title_ok.
Qed.

Lemma for_lines_ok lines i st st' :
  locals_ok styles st → scan i lines st = Return st' → locals_ok styles st'.
Proof.
  revert i st. induction lines as [|line lines IH]; intros i st Hok; simpl.
  - by intros [= <-].
  - destruct (step i line st) as [st1|] eqn:H1; simpl; [|done].
    apply IH. by eapply loop_body_ok.
Qed.
End scan.

(** Every line read adds one line to the text. *)
Lemma loop_body_rst_lines filename title_level styles i line st st' :
  loop_body filename title_level styles i line st = Return st' →
  ∃ line', rst_lines st' = rst_lines st ++ [line'].
Proof.
  unfold loop_body. destruct (negb _); [intros [= <-]; by eexists|].
  destruct (prev_non_title_line st) as [prev|]; cbn; [|done].
  case_bool_decide; [intros [= <-]; by eexists|]. unfold adjust_title.
  destruct (head line) as [c|]; cbn; [|done].
  destruct (index styles c) as [j|]; cbn; [|done].
  case_bool_decide; [by destruct (subscript styles _)|].
  case_bool_decide; [done|].
  case_bool_decide; [intros [= <-]; by eexists|].
  destruct (subscript styles _); cbn; [|done].
  intros [= <-]. by eexists.
Qed.

Lemma for_lines_rst_lines filename title_level styles i lines st st' :
  for_lines filename title_level styles i lines st = Return st' →
  ∃ more, rst_lines st' = rst_lines st ++ more
          ∧ length more = length lines.
Proof.
  revert i st. induction lines as [|line rest IH]; intros i st.
  - intros [= <-]. exists []. by rewrite app_nil_r.
  - cbn [for_lines].
    destruct (loop_body _ _ _ i line st) as [st1|] eqn:H1; cbn; [|done].
    intros (more & -> & Hlen)%IH.
    apply loop_body_rst_lines in H1 as [line' ->].
    exists (line' :: more). rewrite <- (assoc_L (++)). cbn. by rewrite Hlen.
Qed.

(** ** Lines that are, and are not, taken as title underlines *)

(** The pattern is a character class, so an underline that mixes marker
    characters is taken as a title too: it is not true that every line
    other than one repeated marker is passed through. *)
Lemma mixed_markers_are_adjusted :
  ¬ (∀ filename title_level styles i st prev line,
       prev_non_title_line st = Some prev →
       ¬ (one_repeated_marker styles line ∧ (length prev ≤ length line)%nat) →
       loop_body filename title_level styles i line st
       = Return (keep_as_text line st)).
Proof.
  intros H.
  specialize (H (lit "f.rst") 1 styles4 2 (keep_as_text (ln "ab") initial_locals)
                (ln "ab") (ln "=-~") eq_refl).
  assert (¬ one_repeated_marker styles4 (ln "=-~")) as Hno.
  { intros (c & n & _ & Hn & Heq). unfold ln, lit in Heq. simpl in Heq.
    do 3 (destruct n as [|n]; [lia|]). destruct Heq; simplify_eq/=. }
  specialize (H (λ H', Hno (proj1 H'))). vm_compute in H. discriminate H.
Qed.

(** The test that the code makes: a line is handled as a title underline
    (lines 57-112) exactly when it consists of at least three characters
    of the style table, in any mix, up to a final newline, and is at least
    as long as the last line kept as text; any other line is appended
    unchanged and becomes the line to measure the next underline
    against. *)
Theorem underline_test filename title_level styles i st prev line :
  prev_non_title_line st = Some prev →
  (marker_line styles line ∧ (length prev ≤ length line)%nat →
   loop_body filename title_level styles i line st
   = adjust_title filename title_level styles i line st)
  ∧ (¬ (marker_line styles line ∧ (length prev ≤ length line)%nat) →
     loop_body filename title_level styles i line st
     = Return {| prev_line_title_level := prev_line_title_level st;
                 file_offset := file_offset st;
                 prev_non_title_line := Some line;
                 rst_lines := rst_lines st ++ [line] |}).
Proof.
  intros Hprev. split.
  - intros [Hm Hlen]. apply loop_body_title. split.
    + by apply title_regex_match_true.
    + by exists prev.
  - intros Hnot.
    destruct (title_regex_match styles line) eqn:Hm.
    + apply (loop_body_short _ _ _ _ _ _ prev); [done|].
      apply title_regex_match_true in Hm.
      destruct (decide (length prev ≤ length line)%nat); [|lia].
      by destruct Hnot.
    + by apply loop_body_text.
Qed.

Lemma underline_test_witness :
  loop_body (lit "f.rst") 1 styles4 2 (ln "=====")
    (keep_as_text (ln "Title") initial_locals)
  = adjust_title (lit "f.rst") 1 styles4 2 (ln "=====")
      (keep_as_text (ln "Title") initial_locals)
  ∧ loop_body (lit "f.rst") 1 styles4 2 (ln "===")
      (keep_as_text (ln "Title") initial_locals)
    = Return {| prev_line_title_level := 0;
                file_offset := None;
                prev_non_title_line := Some (ln "===");
                rst_lines := [ln "Title"; ln "==="] |}.
Proof.
  pose proof (underline_test (lit "f.rst") 1 styles4 2
                (keep_as_text (ln "Title") initial_locals) (ln "Title")) as H.
  split.
  - apply (H (ln "=====") eq_refl). split.
    + exists (lit "====="). split; [by right|]. split; [simpl; lia|].
      repeat constructor.
    + simpl. lia.
  - apply (H (ln "===") eq_refl). intros [_ Hlen]. simpl in Hlen. lia.
Defined.

(** C3, on the code: a line that mixes marker characters is not one
    repeated marker, yet it is not passed through.  With the table
    [= - ~ +] and target level 1, the line [=-~] under the text [ab] is
    taken as a title in the style of its first character, and only that
    character is replaced: [--~] is returned.  For the same reason the
    border [+-----+-----+] of a grid table, met after a [=] title, is taken
    as a [+] title, three levels down, and the call raises the descent
    error. *)
Theorem mixed_marker_line_is_rewritten :
  ¬ one_repeated_marker styles4 (ln "=-~")
  ∧ load_with_adjusted_titles (lit "f.rst") 1 styles4 [ln "ab"; ln "=-~"]
    = Return (join [ln "ab"; ln "--~"])
  ∧ ¬ one_repeated_marker styles4 (ln "+-----+-----+")
  ∧ load_with_adjusted_titles (lit "f.rst") 0 styles4
      [ln "Intro"; ln "====="; ln "+-----+-----+"]
    = Raise (Exception (BadTitleLevel (lit "f.rst") 4 "+" styles4 "=")).
Proof.
  split_and!.
  - intros (c & n & _ & Hn & Heq). unfold ln, lit in Heq. simpl in Heq.
    do 3 (destruct n as [|n]; [lia|]). destruct Heq; simplify_eq/=.
  - reflexivity.
  - intros (c & n & _ & Hn & Heq). unfold ln, lit in Heq. simpl in Heq.
    do 3 (destruct n as [|n]; [lia|]). destruct Heq; simplify_eq/=.
  - reflexivity.
Qed.

(** ** A file that starts with an underline *)

(** C9: when the first line of the file already matches the title pattern,
    [len(prev_non_title_line)] is evaluated on [None] and the call ends in a
    [TypeError], whatever follows in the file. *)
Theorem first_line_underline_raises filename title_level styles line rest :
  title_regex_match styles line = true →
  load_with_adjusted_titles filename title_level styles (line :: rest)
  = Raise TypeError.
Proof.
  intros Hm. rewrite load_for_lines.
  - simpl. unfold loop_body. by rewrite Hm.
  - intros ->. by rewrite title_regex_match_nil in Hm.
Qed.

Lemma first_line_underline_raises_witness :
  load_with_adjusted_titles (lit "f.rst") 0 styles4
    [ln "====="; ln "Title"; ln "====="] = Raise TypeError.
Proof. by apply first_line_underline_raises. Defined.

(** ** The two sanity checks on a title *)

Section checks.
Context (filename : str) (title_level : Z) (styles : list ascii).

Local Abbreviation scan := (for_lines filename title_level styles).
Local Abbreviation load := (load_with_adjusted_titles filename title_level styles).

Lemma is_title_underline_nonempty st line :
  is_title_underline styles st line → styles ≠ [].
Proof. intros [Hm _] ->. by rewrite title_regex_match_nil in Hm. Qed.

Lemma local_level_Some line j :
  local_level styles line = Some j →
  ∃ c, head line = Some c ∧ index styles c = Some j.
Proof.
  unfold local_level. destruct (head line) as [c|]; [|done]. by exists c.
Qed.

(** The check of line 72 fails at a title more than one level below the
    previous one; the number put in the message is the loop index plus
    one. *)
Lemma descent_error pre line post st c j :
  scan 1 pre initial_locals = Return st →
  is_title_underline styles st line →
  head line = Some c → index styles c = Some j →
  prev_line_title_level st + 1 < j →
  ∃ prev_style,
    load (pre ++ line :: post)
    = Raise (Exception (BadTitleLevel filename (Z.of_nat (length pre) + 2) c
                          styles prev_style)).
Proof.
  intros Hpre Ht Hc Hj Hlt.
  pose proof (for_lines_ok _ _ _ _ _ _ _ (initial_locals_ok styles) Hpre)
    as (Hp0 & Hp & _).
  pose proof (index_range _ _ _ Hj) as [Hjr _].
  assert (is_Some (subscript styles (prev_line_title_level st))) as [ps Hps].
  { rewrite subscript_nonneg by done. apply lookup_lt_is_Some. lia. }
  exists ps. rewrite load_for_lines by by eapply is_title_underline_nonempty.
  erewrite for_lines_raise; [done | done |].
  rewrite loop_body_title by done.
  rewrite (adjust_title_descent _ _ _ _ _ _ c j) by done.
  rewrite Hps. simpl.
  by replace (Z.of_nat (length pre) + 1 + 1) with (Z.of_nat (length pre) + 2) by lia.
Qed.

(** A title that is at most one level below the previous one, or anywhere
    above it, passes the check of line 72. *)
Lemma no_descent_error i line st j :
  is_title_underline styles st line →
  local_level styles line = Some j →
  j ≤ prev_line_title_level st + 1 →
  ∀ f n c t p,
    loop_body filename title_level styles i line st
    ≠ Raise (Exception (BadTitleLevel f n c t p)).
Proof.
  intros Ht (c & Hc & Hj)%local_level_Some Hle f n c0 t p.
  rewrite loop_body_title by done.
  destruct (decide (title_level + j - offset_at st j < Z.of_nat (length styles))).
  - rewrite (adjust_title_rewrite _ _ _ _ _ _ c j) by done.
    case_bool_decide; simpl; [done|].
    by destruct (subscript styles _).
  - by rewrite (adjust_title_exhausted _ _ _ _ _ _ c j) by first [done | lia].
Qed.
End checks.

(** C4, on the code: the file below has four lines; its fourth line
    underlines a title two levels below the previous one, and the error
    raised for it names line 5. *)
Theorem descent_error_names_next_line :
  load_with_adjusted_titles (lit "intro.rst") 0 styles4
    [ln "Intro"; ln "====="; ln "Deep"; ln "~~~~"]
  = Raise (Exception (BadTitleLevel (lit "intro.rst") 5 "~" styles4 "=")).
Proof. reflexivity. Qed.

(** C8, as stated, does not hold: the descent check of line 72 comes first.
    With four styles and target level 2, a [~] title straight after a [=]
    title has adjusted level 4, yet the error raised is the descent one. *)
Lemma descent_error_comes_first :
  ¬ (∀ filename title_level styles pre line post st j,
       for_lines filename title_level styles 1 pre initial_locals = Return st →
       is_title_underline styles st line →
       local_level styles line = Some j →
       Z.of_nat (length styles) ≤ title_level + j - offset_at st j →
       ∃ n, load_with_adjusted_titles filename title_level styles
              (pre ++ line :: post)
            = Raise (Exception (SubTitleTooLow filename n))).
Proof.
  intros H.
  destruct (H (lit "f.rst") 2 styles4 [ln "Top"; ln "==="] (ln "~~~") []
              _ 2 eq_refl) as [n Hn].
  - split; [done|]. exists (ln "Top"). split; [done | simpl; lia].
  - done.
  - vm_compute. discriminate.
  - vm_compute in Hn. discriminate Hn.
Qed.

(** C8, amended: a title that passes the descent check and whose adjusted
    level is not a position of the style table makes the call raise the
    [SubTitleTooLow] error for this file; nothing is returned, whatever
    follows the title. *)
Theorem style_table_exhausted filename title_level styles pre line post st j :
  for_lines filename title_level styles 1 pre initial_locals = Return st →
  is_title_underline styles st line →
  local_level styles line = Some j →
  j ≤ prev_line_title_level st + 1 →
  Z.of_nat (length styles) ≤ title_level + j - offset_at st j →
  ∃ n, load_with_adjusted_titles filename title_level styles
         (pre ++ line :: post)
       = Raise (Exception (SubTitleTooLow filename n)).
Proof.
  intros Hpre Ht (c & Hc & Hj)%local_level_Some Hle Hex.
  exists (Z.of_nat (length pre) + 1 + 1).
  rewrite load_for_lines by by eapply is_title_underline_nonempty.
  erewrite for_lines_raise; [done | done |].
  rewrite loop_body_title by done. by eapply adjust_title_exhausted.
Qed.

Lemma style_table_exhausted_witness :
  ∃ n, load_with_adjusted_titles (lit "f.rst") 3 styles4
         ([ln "Top"; ln "==="; ln "Sub"] ++ ln "---" :: [ln "more"])
       = Raise (Exception (SubTitleTooLow (lit "f.rst") n)).
Proof.
  apply (style_table_exhausted (lit "f.rst") 3 styles4
           [ln "Top"; ln "==="; ln "Sub"] (ln "---") [ln "more"]
           {| prev_line_title_level := 0; file_offset := Some 0;
              prev_non_title_line := Some (ln "Sub");
              rst_lines := [ln "Top"; ln "+++"; ln "Sub"] |} 1).
  - reflexivity.
  - split; [reflexivity|]. exists (ln "Sub"). split; [reflexivity | simpl; lia].
  - reflexivity.
  - simpl; lia.
  - simpl. unfold offset_at. simpl. lia.
Defined.

(** ** Adjusted levels below zero *)




Example negative_adjusted_level_example :
  load_with_adjusted_titles (lit "f.rst") 0 styles4
    [ln "Sub"; ln "---"; ln "Top"; ln "==="]
  = Return (join [ln "Sub"; ln "==="; ln "Top"; ln "+++"]).
Proof. reflexivity. Qed.

(** ** [get_rst] on a file *)

Lemma last_two_newlines (s : str) :
  last_two s = [NL; NL] ↔ ∃ body, s = body ++ [NL; NL].
Proof.
  unfold last_two. split.
  - intros H. exists (take (length s - 2) s).
    by rewrite <- H, take_drop.
  - intros [body ->]. rewrite length_app. simpl.
    replace (length body + 2 - 2)%nat with (length body) by lia.
    by rewrite drop_app_length.
Qed.

(** C2, as stated, does not hold: only the last two characters are
    compared, so a file that ends with three newlines is returned. *)
Lemma three_newlines_accepted :
  ¬ (∀ fs styles spec_dir adjust_titles path title_level content,
       fs (spec_dir ++ path) = Some content →
       ¬ ends_with_exactly_two_newlines content →
       get_rst fs styles spec_dir adjust_titles (Basestring path) title_level
       = Raise (Exception (NotTwoNewlines path))).
Proof.
  intros H.
  specialize (H (λ _, Some (join [ln "text"; [NL]; [NL]])) styles4 (lit "spec/")
                true (lit "a.rst") 0 _ eq_refl).
  assert (¬ ends_with_exactly_two_newlines (join [ln "text"; [NL]; [NL]])) as Hn.
  { intros (body & Heq & Hlast).
    change (join [ln "text"; [NL]; [NL]])
      with (lit "text" ++ [NL] ++ [NL; NL]) in Heq.
    rewrite !(assoc_L (++)) in Heq. apply app_inv_tail in Heq.
    subst body. by apply Hlast. }
  specialize (H Hn). vm_compute in H. discriminate H.
Qed.

(** C2, amended: the check is made on the text about to be returned, after
    the titles were adjusted.  An exception of the adjustment is the one
    raised; otherwise the [NotTwoNewlines] error naming the file is raised
    exactly when the last two characters of that text are not both
    newlines. *)
Theorem two_newlines_check (fs : str → option str) (styles : list ascii)
    (spec_dir : str) (adjust_titles : bool) (path : str) (title_level : Z)
    (content : str) :
  fs (spec_dir ++ path) = Some content →
  match (if adjust_titles
         then load_with_adjusted_titles path title_level styles
                (readlines content)
         else Return content) with
  | Raise e =>
      get_rst fs styles spec_dir adjust_titles (Basestring path) title_level
      = Raise e
  | Return rst =>
      ((∃ body, rst = body ++ [NL; NL]) →
       get_rst fs styles spec_dir adjust_titles (Basestring path) title_level
       = Return rst)
      ∧ (¬ (∃ body, rst = body ++ [NL; NL]) →
         get_rst fs styles spec_dir adjust_titles (Basestring path) title_level
         = Raise (Exception (NotTwoNewlines path)))
  end.
Proof.
  intros Hfs. simpl. unfold get_rst_file. rewrite Hfs. simpl.
  destruct (if adjust_titles then _ else _) as [rst|e]; simpl; [|done].
  split; intros H.
  - rewrite bool_decide_eq_false_2; [done|].
    intros Hne. by apply Hne, last_two_newlines.
  - rewrite bool_decide_eq_true_2; [done|].
    intros Heq. by apply H, last_two_newlines.
Qed.

Lemma two_newlines_check_witness :
  get_rst (λ _, Some (join [ln "Top"; ln "==="; ln "~~~"])) styles4
    (lit "spec/") true (Basestring (lit "a.rst")) 0
  = Raise (Exception (BadTitleLevel (lit "a.rst") 4 "~" styles4 "="))
  ∧ get_rst (λ _, Some (join [ln "Top"; ln "==="; lit "end"])) styles4
      (lit "spec/") true (Basestring (lit "a.rst")) 0
    = Raise (Exception (NotTwoNewlines (lit "a.rst")))
  ∧ get_rst (λ _, Some (join [ln "Top"; ln "==="; [NL]; [NL]])) styles4
      (lit "spec/") true (Basestring (lit "a.rst")) 1
    = Return (join [ln "Top"; ln "---"; [NL]; [NL]]).
Proof.
  split_and!.
  - exact (two_newlines_check (λ _, Some (join [ln "Top"; ln "==="; ln "~~~"]))
             styles4 (lit "spec/") true (lit "a.rst") 0 _ eq_refl).
  - refine (proj2 (two_newlines_check
                     (λ _, Some (join [ln "Top"; ln "==="; lit "end"]))
                     styles4 (lit "spec/") true (lit "a.rst") 0 _ eq_refl) _).
    intros [body Hbody]. apply (f_equal last) in Hbody.
    change [NL; NL] with ([NL] ++ [NL]) in Hbody.
    rewrite (assoc_L (++)), last_snoc in Hbody. vm_compute in Hbody.
    discriminate Hbody.
  - refine (proj1 (two_newlines_check
                     (λ _, Some (join [ln "Top"; ln "==="; [NL]; [NL]]))
                     styles4 (lit "spec/") true (lit "a.rst") 1 _ eq_refl) _).
    by exists (join [ln "Top"; ln "---"]).
Defined.

(** ** [get_rst] on lists and dicts *)

Lemma mapM_Return {A B} (f : A → result B) (l : list A) (ys : list B) :
  Forall2 (λ x y, f x = Return y) l ys → mapM f l = Return ys.
Proof.
  induction 1 as [|x y l ys Hx _ IH]; simpl; [done|].
  by rewrite Hx, IH.
Qed.

Lemma Sorted_lt_le (l : list Z) : Sorted Z.lt l → Sorted Z.le l.
Proof.
  induction 1 as [|x l _ IH Hhd]; constructor; [done|].
  destruct Hhd; constructor. lia.
Qed.

Lemma Sorted_lt_NoDup (l : list Z) : Sorted Z.lt l → NoDup l.
Proof.
  intros Hs%(Sorted_StronglySorted Z.lt).
  induction Hs as [|x l _ IH Hall]; constructor; [|done].
  intros Hx. rewrite Forall_forall in Hall. specialize (Hall x Hx). lia.
Qed.

(** [sorted(d.keys())] is the one ascending list of the keys of [d]. *)
Lemma sorted_keys_unique {A} (d : gmap Z A) (levels : list Z) :
  Sorted Z.lt levels → (∀ k, k ∈ levels ↔ is_Some (d !! k)) →
  sorted_keys d = levels.
Proof.
  intros Hs Hdom. unfold sorted_keys.
  apply (Sorted_unique Z.le).
  - apply (Sorted_merge_sort Z.le).
  - by apply Sorted_lt_le.
  - rewrite merge_sort_Permutation. apply NoDup_Permutation.
    + apply NoDup_fst_map_to_list.
    + by apply Sorted_lt_NoDup.
    + intros k. rewrite Hdom, list_elem_of_fmap. split.
      * intros ([k' x] & -> & Hx). apply elem_of_map_to_list in Hx. by eexists.
      * intros [x Hx]. exists (k, x). split; [done|].
        by apply elem_of_map_to_list.
Qed.

(** ** [fix_relative_titles] *)

Section relative.
Context (tgt : target).

Local Abbreviation styles := (title_styles tgt).
Local Abbreviation rel := (relative_title_styles tgt).



Lemma most_recent_title_style_elem_of seen c :
  most_recent_title_style tgt None seen = Some c → c ∈ styles.
Proof.
  unfold most_recent_title_style.
  destruct (last (filter _ seen)) as [line|] eqn:Hl; [|done].
  intros Hc. apply last_Some_elem_of, list_elem_of_filter in Hl as [Ha _].
  apply andb_true_iff in Ha as [_ Hm].
  apply title_regex_match_head in Hm as (c' & Hc' & Hin). by simplify_eq.
Qed.
End relative.



Example relative_titles_example :
  fix_relative_titles (Target styles4 rel3)
    (join [ln "A"; ln "---"; ln "B"; ln "<<<"; ln "C"; ln "///"; ln ">>>"])
  = Return (join [ln "A"; ln "---"; ln "B"; ln "~~~"; ln "C"; ln "---"; ln "==="])
  ∧ fix_relative_titles (Target styles4 rel3)
      (join [ln "A"; ln "+++"; ln "B"; ln "<<<"])
    = Raise (Exception CannotGoLower)
  ∧ fix_relative_titles (Target styles4 rel3)
      (join [ln "A"; ln "==="; ln "B"; ln ">>>"])
    = Raise (Exception CannotGoHigher).
Proof. done. Qed.

(** ** The titles of a fragment and their levels *)

Lemma replace_same c s : replace c c s = s.
Proof.
  unfold replace. induction s as [|x s IH]; simpl; [done|].
  rewrite IH. by destruct (Ascii.eqb_spec x c) as [->|].
Qed.

Lemma subscript_Some_range {A} (l : list A) (i : Z) x :
  subscript l i = Some x → - Z.of_nat (length l) ≤ i < Z.of_nat (length l).
Proof.
  unfold subscript. repeat case_bool_decide; [| |done];
    intros Hlt%lookup_lt_Some; lia.
Qed.

Lemma subscript_range_Some {A} (l : list A) (i : Z) :
  - Z.of_nat (length l) ≤ i < Z.of_nat (length l) → is_Some (subscript l i).
Proof.
  intros Hr. unfold subscript. repeat case_bool_decide; [| |lia];
    apply lookup_lt_is_Some; lia.
Qed.

Lemma underlines_is_title styles st prev line :
  prev_non_title_line st = Some prev →
  underlines styles prev line = true → is_title_underline styles st line.
Proof.
  intros Hp [Hm Hlen%bool_decide_eq_true]%andb_true_iff.
  split; [done|]. by exists prev.
Qed.

Lemma underlines_local_level styles prev line :
  underlines styles prev line = true →
  ∃ c j, head line = Some c ∧ index styles c = Some j
         ∧ local_level styles line = Some j.
Proof.
  intros [Hm _]%andb_true_iff.
  destruct (title_regex_match_level _ _ Hm) as (c & j & Hc & Hj).
  exists c, j. split_and!; [done..|]. unfold local_level. by rewrite Hc.
Qed.

(** ** What a successful scan computes *)

Section transform.
Context (filename : str) (title_level : Z) (styles : list ascii).

Local Abbreviation scan := (for_lines filename title_level styles).
Local Abbreviation load := (load_with_adjusted_titles filename title_level styles).

(** Lines 57-112 return exactly when both checks pass and the subscript of
    line 111 is in range; the line appended is the restyled one. *)
Lemma adjust_title_Return i line st st1 c j :
  head line = Some c → index styles c = Some j →
  adjust_title filename title_level styles i line st = Return st1
  ↔ j ≤ prev_line_title_level st + 1
    ∧ - Z.of_nat (length styles) ≤ title_level + j - offset_at st j
      < Z.of_nat (length styles)
    ∧ st1 = {| prev_line_title_level := j;
               file_offset := Some (offset_at st j);
               prev_non_title_line := prev_non_title_line st;
               rst_lines := rst_lines st
                            ++ [restyle styles (title_level + j - offset_at st j)
                                  line] |}.
Proof.
  intros Hc Hj. pose proof (index_range _ _ _ Hj) as [Hjr _].
  unfold restyle. rewrite Hc.
  destruct (decide (j ≤ prev_line_title_level st + 1)) as [Hle|Hgt].
  - destruct (decide (title_level + j - offset_at st j
                      < Z.of_nat (length styles))) as [Hlt|Hge].
    + rewrite (adjust_title_rewrite _ _ _ _ _ _ c j) by done.
      case_bool_decide as Ha; simpl.
      * rewrite Ha, (subscript_index _ _ _ Hj). simpl. rewrite replace_same.
        split; [intros [= <-]; split_and!; [done | lia | lia | done]|].
        by intros (_ & _ & ->).
      * destruct (subscript styles _) as [c'|] eqn:Hs; simpl.
        -- apply subscript_Some_range in Hs.
           split; [by intros [= <-] | by intros (_ & _ & ->)].
        -- split; [done|]. intros (_ & Hr & _).
           apply subscript_range_Some in Hr as [? Hr]. congruence.
    + rewrite (adjust_title_exhausted _ _ _ _ _ _ c j) by first [done | lia].
      split; [done | intros (_ & Hr & _); lia].
  - rewrite (adjust_title_descent _ _ _ _ _ _ c j) by first [done | lia].
    destruct (subscript styles _); simpl; (split; [done | intros (? & _); lia]).
Qed.

Lemma loop_body_not_underlines i line st prev :
  prev_non_title_line st = Some prev →
  underlines styles prev line = false →
  loop_body filename title_level styles i line st
  = Return (keep_as_text line st).
Proof.
  intros Hp [Hm|Hlen%bool_decide_eq_false]%andb_false_iff.
  - by apply loop_body_text.
  - apply (loop_body_short _ _ _ _ _ _ prev); [done | lia].
Qed.

Lemma title_levels_title prev line rest j :
  underlines styles prev line = true → local_level styles line = Some j →
  title_levels styles prev (line :: rest) = j :: title_levels styles prev rest.
Proof. intros Hu Hj. unfold title_levels. simpl. by rewrite Hu, Hj. Qed.

Lemma title_levels_text prev line rest :
  underlines styles prev line = false →
  title_levels styles prev (line :: rest) = title_levels styles line rest.
Proof. intros Hu. unfold title_levels. simpl. by rewrite Hu. Qed.

Lemma offset_agrees_offset_at st j levels k :
  offset_agrees st (j :: levels) k → offset_at st j = k.
Proof. unfold offset_agrees, offset_at. by destruct (file_offset st). Qed.

(** A scan that returns has met titles that obey the nesting rule and
    whose adjusted levels are valid subscripts, and has appended the spec's
    transform of the lines. *)
Lemma scan_Return_inv lines i st st' prev k :
  prev_non_title_line st = Some prev →
  offset_agrees st (title_levels styles prev lines) k →
  scan i lines st = Return st' →
  descent_ok (prev_line_title_level st) (title_levels styles prev lines)
  ∧ Forall (λ j, - Z.of_nat (length styles) ≤ title_level + j - k
                 < Z.of_nat (length styles))
      (title_levels styles prev lines)
  ∧ rst_lines st'
    = rst_lines st ++ adjusted_lines styles title_level k prev lines.
Proof.
  revert i st prev. induction lines as [|line rest IH]; intros i st prev Hp Hk.
  - intros [= <-]. simpl. by rewrite app_nil_r.
  - simpl. destruct (underlines styles prev line) eqn:Hu.
    + destruct (underlines_local_level _ _ _ Hu) as (c & j & Hc & Hj & Hl).
      rewrite (title_levels_title _ _ _ j) in * by done.
      rewrite loop_body_title by by eapply underlines_is_title.
      destruct (adjust_title _ _ _ i line st) as [st1|] eqn:H1; simpl; [|done].
      apply (adjust_title_Return _ _ _ _ c j) in H1 as (Hle & Hr & ->);
        [|done..].
      rewrite (offset_agrees_offset_at _ _ _ _ Hk) in *.
      intros (Hd & Hall & Hout)%(IH _ _ prev); [|done..].
      simpl in *. rewrite Hl. simpl.
      split_and!; [done | done | by constructor |].
      by rewrite Hout, <- (assoc_L (++)).
    + rewrite title_levels_text in * by done.
      rewrite (loop_body_not_underlines _ _ _ prev) by done. simpl.
      intros (Hd & Hall & Hout)%(IH _ _ line); [|done..].
      simpl in *. split_and!; [done..|].
      by rewrite Hout, <- (assoc_L (++)).
Qed.

(** Conversely, the scan returns when the titles obey the nesting rule and
    all adjusted levels are valid subscripts. *)
Lemma scan_Return lines i st prev k :
  prev_non_title_line st = Some prev →
  offset_agrees st (title_levels styles prev lines) k →
  descent_ok (prev_line_title_level st) (title_levels styles prev lines) →
  Forall (λ j, - Z.of_nat (length styles) ≤ title_level + j - k
               < Z.of_nat (length styles))
    (title_levels styles prev lines) →
  ∃ st', scan i lines st = Return st'.
Proof.
  revert i st prev. induction lines as [|line rest IH]; intros i st prev Hp Hk.
  - intros _ _. by eexists.
  - simpl. destruct (underlines styles prev line) eqn:Hu.
    + destruct (underlines_local_level _ _ _ Hu) as (c & j & Hc & Hj & Hl).
      rewrite (title_levels_title _ _ _ j) in * by done.
      intros [Hle Hd] [Hr Hall]%Forall_cons.
      rewrite loop_body_title by by eapply underlines_is_title.
      pose proof (offset_agrees_offset_at _ _ _ _ Hk) as Hoff.
      assert (adjust_title filename title_level styles i line st
              = Return {| prev_line_title_level := j;
                          file_offset := Some k;
                          prev_non_title_line := prev_non_title_line st;
                          rst_lines := rst_lines st
                            ++ [restyle styles (title_level + j - k) line] |})
        as ->.
      { apply (adjust_title_Return _ _ _ _ c j); [done..|]. by rewrite Hoff. }
      simpl. by apply (IH _ _ prev).
    + rewrite title_levels_text in * by done.
      intros Hd Hall.
      rewrite (loop_body_not_underlines _ _ _ prev) by done. simpl.
      by apply (IH _ _ line).
Qed.
End transform.

(** ** The levels of the adjusted titles *)

Lemma subscript_position {A} (l : list A) (a : Z) :
  - Z.of_nat (length l) ≤ a →
  subscript l a = l !! Z.to_nat (position (length l) a).
Proof.
  intros Ha. unfold subscript, position. case_bool_decide; [done|].
  by rewrite bool_decide_eq_true_2 by done.
Qed.

Lemma replace_length c c' s : length (replace c c' s) = length s.
Proof. unfold replace. by rewrite length_map. Qed.

Lemma replace_head c c' s :
  head s = Some c → head (replace c c' s) = Some c'.
Proof.
  destruct s as [|x s]; [done|]. intros [= ->]. simpl.
  by rewrite Ascii.eqb_refl.
Qed.

Lemma replace_app c c' s1 s2 :
  replace c c' (s1 ++ s2) = replace c c' s1 ++ replace c c' s2.
Proof. unfold replace. by rewrite map_app. Qed.

Lemma replace_Forall (chars : list ascii) c c' s :
  c' ∈ chars → Forall (λ x, x ∈ chars) s →
  Forall (λ x, x ∈ chars) (replace c c' s).
Proof.
  intros Hc'. unfold replace. induction 1 as [|x s Hx _ IH]; simpl; [done|].
  constructor; [|done]. by destruct (Ascii.eqb x c).
Qed.

(** Replacing a style by a style keeps a line in the pattern. *)
Lemma replace_title_regex_match chars c c' line :
  c' ∈ chars → title_regex_match chars line = true →
  title_regex_match chars (replace c c' line) = true.
Proof.
  intros Hc' (body & Hline & Hlen & Hall)%title_regex_match_true.
  apply title_regex_match_true.
  pose proof (replace_Forall chars c c' body Hc' Hall) as Hall'.
  destruct Hline as [-> | ->].
  - exists (replace c c' body). rewrite replace_length.
    split_and!; [by left | done | done].
  - rewrite replace_app.
    change (replace c c' [NL]) with [if Ascii.eqb NL c then c' else NL].
    destruct (Ascii.eqb_spec NL c) as [<-|Hne].
    + exists (replace NL c' body ++ [c']). split_and!; [by left | |].
      * rewrite length_app, replace_length. lia.
      * apply Forall_app. split; [done|]. by apply Forall_singleton.
    + exists (replace c c' body). rewrite replace_length.
      split_and!; [by right | done | done].
Qed.

Lemma omap_id_fmap (f : Z → Z) (l : list (option Z)) :
  omap id (fmap (M:=list) (fmap (M:=option) f) l) = f <$> omap id l.
Proof.
  induction l as [|[j|] l IH]; [done| |exact IH]. cbn. f_equal. exact IH.
Qed.

Section adjusted_levels.
Context (styles : list ascii) (title_level k : Z).
Hypothesis styles_NoDup : NoDup styles.

Lemma restyle_underlines prev line j :
  underlines styles prev line = true →
  local_level styles line = Some j →
  - Z.of_nat (length styles) ≤ title_level + j - k < Z.of_nat (length styles) →
  underlines styles prev (restyle styles (title_level + j - k) line) = true
  ∧ local_level styles (restyle styles (title_level + j - k) line)
    = Some (position (length styles) (title_level + j - k)).
Proof.
  intros Hu Hj Hr.
  destruct (underlines_local_level _ _ _ Hu) as (c & j' & Hc & Hj' & Hl).
  assert (j' = j) as -> by congruence.
  apply andb_true_iff in Hu as [Hm Hlen%bool_decide_eq_true].
  unfold restyle. rewrite Hc.
  destruct (subscript_range_Some styles _ Hr) as [c' Hc'].
  rewrite Hc'. simpl.
  rewrite subscript_position in Hc' by lia.
  assert (0 ≤ position (length styles) (title_level + j - k)) as Hpos.
  { unfold position. case_bool_decide; lia. }
  split.
  - apply andb_true_iff. split.
    + apply replace_title_regex_match; [|done]. by eapply list_elem_of_lookup_2.
    + apply bool_decide_eq_true. by rewrite replace_length.
  - unfold local_level. rewrite (replace_head _ _ _ Hc). simpl.
    rewrite (index_lookup_NoDup _ _ _ styles_NoDup Hc'). f_equal. lia.
Qed.

(** The adjusted lines have their titles where the fragment has them; a
    title of local level [j] has become one of level
    [position (title_level + j - k)]. *)
Lemma line_levels_adjusted prev lines :
  Forall (λ j, - Z.of_nat (length styles) ≤ title_level + j - k
               < Z.of_nat (length styles))
    (title_levels styles prev lines) →
  line_levels styles prev (adjusted_lines styles title_level k prev lines)
  = fmap (M:=list)
      (fmap (M:=option) (λ j, position (length styles) (title_level + j - k)))
      (line_levels styles prev lines).
Proof.
  revert prev. induction lines as [|line rest IH]; intros prev; [done|].
  simpl. destruct (underlines styles prev line) eqn:Hu.
  - destruct (underlines_local_level _ _ _ Hu) as (c & j & Hc & Hj & Hl).
    rewrite (title_levels_title _ _ _ _ j) by done.
    intros [Hr Hall]%Forall_cons. rewrite Hl. simpl.
    destruct (restyle_underlines prev line j Hu Hl Hr) as [-> ->].
    by rewrite (IH _ Hall).
  - rewrite title_levels_text by done. intros Hall.
    simpl. rewrite Hu. by rewrite (IH _ Hall).
Qed.

End adjusted_levels.

(** ** The uniform shift *)

Lemma fmap_levels_ext (f g : Z → Z) (P : Z → Prop) (l : list (option Z)) :
  (∀ j, P j → f j = g j) → Forall P (omap id l) →
  fmap (M:=list) (fmap (M:=option) f) l = fmap (M:=list) (fmap (M:=option) g) l.
Proof.
  intros Hfg. induction l as [|[j|] l IH]; cbn; [done| |].
  - intros [Hj Hl]%Forall_cons. by rewrite (Hfg j Hj), (IH Hl).
  - intros Hl. by rewrite (IH Hl).
Qed.

(** C1, as stated, does not hold: a fragment that obeys the nesting rule
    is still refused when a shifted level falls off the table.  With four
    styles and target level 3, the titles [=] and [-] would go to levels 3
    and 4, and the call raises [SubTitleTooLow]. *)
Lemma deep_fragment_is_refused :
  ¬ (∀ filename title_level styles first rest k levels,
       NoDup styles →
       title_regex_match styles first = false →
       title_levels styles first rest = k :: levels →
       descent_ok 0 (k :: levels) →
       ∃ out,
         load_with_adjusted_titles filename title_level styles (first :: rest)
         = Return (join (first :: out))
         ∧ title_levels styles first out
           = (λ j, j + (title_level - k)) <$> (k :: levels)).
Proof.
  intros H.
  destruct (H (lit "f.rst") 3 styles4 (ln "A") [ln "==="; ln "B"; ln "---"]
              0 [1]) as (out & Hout & _).
  - exact styles4_NoDup.
  - done.
  - done.
  - simpl. lia.
  - vm_compute in Hout. discriminate Hout.
Qed.

(** C1, amended: take a style table without repeated entries and a
    fragment whose first line is not a marker line, whose titles have the
    local levels [k :: levels], obey the nesting rule from level 0 on, and
    all have their adjusted level [title_level + j - k] inside the table.
    Then the call returns the fragment with each title restyled to its
    adjusted level and every other line kept: titles stay where they were,
    each level is shifted by [title_level - k], and the first title is at
    level [title_level]. *)
Theorem titles_shifted_by_constant_offset
    (filename : str) (title_level : Z) (styles : list ascii)
    (first : str) (rest : list str) (k : Z) (levels : list Z) :
  NoDup styles →
  title_regex_match styles first = false →
  title_levels styles first rest = k :: levels →
  descent_ok 0 (k :: levels) →
  Forall (λ j, 0 ≤ title_level + j - k < Z.of_nat (length styles))
    (k :: levels) →
  let out := adjusted_lines styles title_level k first rest in
  load_with_adjusted_titles filename title_level styles (first :: rest)
  = Return (join (first :: out))
  ∧ line_levels styles first out
    = fmap (M:=list) (fmap (M:=option) (λ j, j + (title_level - k)))
        (line_levels styles first rest)
  ∧ title_levels styles first out
    = (λ j, j + (title_level - k)) <$> (k :: levels)
  ∧ head (title_levels styles first out) = Some title_level.
Proof.
  intros Hnd Hfirst Hlevels Hdesc Hrange out.
  assert (Forall (λ j, - Z.of_nat (length styles) ≤ title_level + j - k
                       < Z.of_nat (length styles))
            (title_levels styles first rest)) as Hrange'.
  { rewrite Hlevels. eapply Forall_impl; [exact Hrange|]. simpl. lia. }
  assert (styles ≠ []) as Hne.
  { intros ->. apply Forall_cons in Hrange as [Hk _]. simpl in Hk. lia. }
  assert (line_levels styles first out
          = fmap (M:=list) (fmap (M:=option) (λ j, j + (title_level - k)))
              (line_levels styles first rest)) as Hll.
  { unfold out. rewrite line_levels_adjusted by done.
    apply (fmap_levels_ext _ _
             (λ j, 0 ≤ title_level + j - k < Z.of_nat (length styles))).
    - intros j Hj. unfold position. rewrite bool_decide_eq_true_2; lia.
    - fold (title_levels styles first rest). by rewrite Hlevels. }
  assert (title_levels styles first out
          = (λ j, j + (title_level - k)) <$> (k :: levels)) as Htl.
  { unfold title_levels at 1. rewrite Hll, <- Hlevels.
    apply omap_id_fmap. }
  split_and!; [|done|done|].
  - rewrite load_for_lines by done. simpl.
    rewrite loop_body_text by done. simpl.
    set (st := keep_as_text first initial_locals).
    assert (offset_agrees st (title_levels styles first rest) k) as Hoff
      by by rewrite Hlevels.
    destruct (scan_Return filename title_level styles rest (1 + 1) st first k)
      as [st' Hst']; [done | done | by rewrite Hlevels | done |].
    rewrite Hst'. simpl.
    by destruct (scan_Return_inv filename title_level styles rest (1 + 1)
                   st st' first k eq_refl Hoff Hst') as (_ & _ & ->).
  - rewrite Htl. simpl. f_equal. lia.
Qed.

Lemma titles_shifted_by_constant_offset_witness :
  load_with_adjusted_titles (lit "f.rst") 1 styles4
    [ln "A"; ln "==="; ln "B"; ln "---"; ln "C"; ln "---";
     ln "D"; ln "==="; ln "E"; ln "---"]
  = Return (join [ln "A"; ln "---"; ln "B"; ln "~~~"; ln "C"; ln "~~~";
                  ln "D"; ln "---"; ln "E"; ln "~~~"]).
Proof.
  refine (proj1 (titles_shifted_by_constant_offset (lit "f.rst") 1 styles4
                   (ln "A")
                   [ln "==="; ln "B"; ln "---"; ln "C"; ln "---";
                    ln "D"; ln "==="; ln "E"; ln "---"]
                   0 [1; 1; 0; 1] _ _ _ _ _)).
  - exact styles4_NoDup.
  - reflexivity.
  - reflexivity.
  - simpl. lia.
  - repeat constructor; simpl; lia.
Defined.

(** ** Files and their lines *)

Lemma readlines_cons c s :
  readlines (c :: s)
  = if Ascii.eqb c NL then [c] :: readlines s
    else match readlines s with
         | [] => [[c]]
         | l :: ls => (c :: l) :: ls
         end.
Proof. done. Qed.

Lemma join_readlines s : join (readlines s) = s.
Proof.
  unfold join. induction s as [|c s IH]; [done|]. rewrite readlines_cons.
  destruct (Ascii.eqb c NL); [cbn; by rewrite IH|].
  destruct (readlines s) as [|l ls]; cbn in *; by rewrite <- IH.
Qed.


Lemma readlines_terminated body s :
  NL ∉ body → readlines (body ++ NL :: s) = (body ++ [NL]) :: readlines s.
Proof.
  induction body as [|c body IH]; intros Hnl.
  - done.
  - apply not_elem_of_cons in Hnl as [Hc Hnl].
    rewrite <- app_comm_cons, readlines_cons.
    destruct (Ascii.eqb_spec c NL) as [->|_]; [done|]. by rewrite IH.
Qed.

Lemma readlines_unterminated l : unterminated l → readlines l = [l].
Proof.
  intros [Hne Hnl]. induction l as [|c l IH]; [done|].
  apply not_elem_of_cons in Hnl as [Hc Hnl]. rewrite readlines_cons.
  destruct (Ascii.eqb_spec c NL) as [->|_]; [done|].
  destruct l as [|c' l]; [done|]. by rewrite IH.
Qed.

Lemma readlines_join ls : file_lines ls → readlines (join ls) = ls.
Proof.
  induction ls as [|l ls IH]; [done|]. cbn [file_lines join concat].
  destruct ls as [|l' ls].
  - cbn [concat]. rewrite app_nil_r. intros [(body & -> & Hnl)|Hl].
    + pose proof (readlines_terminated body [] Hnl) as H. by rewrite H.
    + by apply readlines_unterminated.
  - intros [(body & -> & Hnl) Hls]. rewrite <- (assoc_L (++)).
    change ([NL] ++ concat (l' :: ls)) with (NL :: join (l' :: ls)).
    rewrite readlines_terminated by done. f_equal. by apply IH.
Qed.

Lemma file_lines_readlines s : file_lines (readlines s).
Proof.
  induction s as [|c s IH]; [done|]. rewrite readlines_cons.
  destruct (Ascii.eqb_spec c NL) as [->|Hc].
  - assert (terminated [NL]) as Ht.
    { exists []. split; [done|]. apply not_elem_of_nil. }
    cbn. destruct (readlines s); [by left | done].
  - destruct (readlines s) as [|l ls].
    + cbn. right. split; [done|]. apply not_elem_of_cons. split; [done|].
      apply not_elem_of_nil.
    + cbn in *. destruct ls as [|l' ls].
      * destruct IH as [(body & -> & Hnl)|[Hne Hnl]].
        -- left. exists (c :: body). split; [done|]. by apply not_elem_of_cons.
        -- right. split; [done|]. by apply not_elem_of_cons.
      * destruct IH as [(body & -> & Hnl) Hls]. split; [|done].
        exists (c :: body). split; [done|]. by apply not_elem_of_cons.
Qed.


(** ** The lines of an adjusted file *)

Lemma replace_not_elem_of c c' x s : x ≠ c' → x ∉ s → x ∉ replace c c' s.
Proof.
  intros Hc' Hs. unfold replace. rewrite list_elem_of_fmap.
  intros (y & Hx & Hy). destruct (Ascii.eqb y c); [done|]. by subst.
Qed.

Lemma replace_terminated c c' l :
  c ≠ NL → c' ≠ NL → terminated l → terminated (replace c c' l).
Proof.
  intros Hc Hc' (body & -> & Hnl). exists (replace c c' body). split.
  - rewrite replace_app. f_equal.
    change (replace c c' [NL]) with [if Ascii.eqb NL c then c' else NL].
    by destruct (Ascii.eqb_spec NL c).
  - by apply replace_not_elem_of.
Qed.

Lemma replace_unterminated c c' l :
  c' ≠ NL → unterminated l → unterminated (replace c c' l).
Proof.
  intros Hc' [Hne Hnl]. split.
  - by destruct l.
  - by apply replace_not_elem_of.
Qed.

Lemma subscript_elem_of {A} (l : list A) (i : Z) x :
  subscript l i = Some x → x ∈ l.
Proof.
  unfold subscript. repeat case_bool_decide; [| |done];
    apply list_elem_of_lookup_2.
Qed.

Section adjusted_file.
Context (styles : list ascii) (title_level k : Z).
Hypothesis styles_no_NL : NL ∉ styles.


End adjusted_file.

(** ** Two fragments side by side *)

Lemma title_levels_range styles prev lines :
  Forall (λ j, 0 ≤ j < Z.of_nat (length styles)) (title_levels styles prev lines).
Proof.
  revert prev. induction lines as [|line rest IH]; intros prev; [constructor|].
  destruct (underlines styles prev line) eqn:Hu.
  - destruct (underlines_local_level _ _ _ Hu) as (c & j & Hc & Hj & Hl).
    rewrite (title_levels_title _ _ _ _ j) by done.
    constructor; [|done]. by apply index_range in Hj as [? _].
  - by rewrite title_levels_text.
Qed.


Lemma load_Return_inv filename title_level styles first rest text :
  load_with_adjusted_titles filename title_level styles (first :: rest)
  = Return text →
  title_regex_match styles first = false
  ∧ descent_ok 0 (title_levels styles first rest)
  ∧ Forall (λ j, - Z.of_nat (length styles)
                 ≤ title_level + j
                   - default 0 (head (title_levels styles first rest))
                 < Z.of_nat (length styles))
      (title_levels styles first rest)
  ∧ text = join (first :: adjusted_lines styles title_level
                            (default 0 (head (title_levels styles first rest)))
                            first rest).
Proof.
  unfold load_with_adjusted_titles. destruct styles as [|s0 styles'] eqn:Hs;
    [done|]. rewrite <- Hs. clear Hs. cbn [for_lines]. unfold loop_body.
  destruct (title_regex_match styles first) eqn:Hm; [done|]. cbn.
  set (st := keep_as_text first initial_locals).
  destruct (for_lines _ _ _ _ rest st) as [st'|] eqn:Hst'; cbn; [|done].
  intros [= <-].
  apply (scan_Return_inv _ _ _ _ _ _ _ first
           (default 0 (head (title_levels styles first rest)))) in Hst'
    as (Hd & Hr & ->); [done | done |].
  unfold offset_agrees. cbn. by destruct (title_levels styles first rest).
Qed.





Example seam_two_levels_down_in_dict :
  get_rst sub_first_files styles4 (lit "spec/") true
    (Dict {[ 1 := Basestring (lit "a.rst"); 2 := Basestring (lit "b.rst") ]}) 0
  = Return (join [ln "Sub"; ln "---"; ln "Top"; ln "==="; [NL];
                  ln "Beta"; ln "~~~~"; [NL]])
  ∧ text_title_levels styles4
      (join [ln "Sub"; ln "---"; ln "Top"; ln "==="; [NL];
             ln "Beta"; ln "~~~~"; [NL]])
    = [1; 0; 2].
Proof. split; vm_compute; reflexivity. Qed.



(** * Further properties of [load_with_adjusted_titles] *)

(** ** Files that need no change *)

Lemma restyle_same styles line c j :
  head line = Some c → index styles c = Some j → restyle styles j line = line.
Proof.
  intros Hc Hj. unfold restyle.
  rewrite Hc, (subscript_index _ _ _ Hj). apply replace_same.
Qed.

Lemma adjusted_lines_same_level styles k prev lines :
  adjusted_lines styles k k prev lines = lines.
Proof.
  revert prev. induction lines as [|line rest IH]; intros prev; [done|].
  cbn [adjusted_lines]. destruct (underlines styles prev line) eqn:Hu.
  - destruct (underlines_local_level _ _ _ Hu) as (c & j & Hc & Hj & Hl).
    rewrite Hl, IH. change (default 0 (Some j)) with j. f_equal.
    replace (k + j - k) with j by lia. by eapply restyle_same.
  - by rewrite IH.
Qed.

Lemma adjusted_lines_no_titles styles title_level k prev lines :
  title_levels styles prev lines = [] →
  adjusted_lines styles title_level k prev lines = lines.
Proof.
  revert prev. induction lines as [|line rest IH]; intros prev; [done|].
  cbn [adjusted_lines]. destruct (underlines styles prev line) eqn:Hu.
  - destruct (underlines_local_level _ _ _ Hu) as (c & j & Hc & Hj & Hl).
    by rewrite (title_levels_title _ _ _ _ j).
  - rewrite title_levels_text by done. intros H. by rewrite IH.
Qed.

(** X1: a file that has no title, or whose first title already has the
    requested level, comes back from [get_rst] byte for byte. *)
Theorem file_at_requested_level_unchanged
    (fs : str → option str) (styles : list ascii) (spec_dir path : str)
    (title_level : Z) (content text : str) :
  fs (spec_dir ++ path) = Some content →
  get_rst fs styles spec_dir true (Basestring path) title_level = Return text →
  (∀ k, head (file_title_levels styles (readlines content)) = Some k →
        k = title_level) →
  text = content.
Proof.
  intros Hfs. cbn [get_rst]. unfold get_rst_file. rewrite Hfs. cbn.
  destruct (load_with_adjusted_titles _ _ _ _) as [rst|] eqn:Hload; cbn; [|done].
  case_bool_decide; [done|]. intros [= <-] Hk.
  rewrite <- (join_readlines content).
  destruct (readlines content) as [|first rest].
  - unfold load_with_adjusted_titles in Hload. destruct styles; [done|].
    by injection Hload as <-.
  - apply load_Return_inv in Hload as (_ & _ & _ & ->). cbn in Hk.
    destruct (title_levels styles first rest) as [|k levels] eqn:Hlevels.
    + by rewrite adjusted_lines_no_titles.
    + cbn. rewrite (Hk k eq_refl). by rewrite adjusted_lines_same_level.
Qed.

Lemma file_at_requested_level_unchanged_witness :
  ∃ text,
    get_rst two_files styles4 (lit "spec/") true (Basestring (lit "a.rst")) 0
    = Return text
    ∧ text = join [ln "Alpha"; ln "====="; [NL]].
Proof.
  eexists. split; [reflexivity|].
  apply (file_at_requested_level_unchanged two_files styles4 (lit "spec/")
           (lit "a.rst") 0); [reflexivity | reflexivity |].
  intros k [= <-]. reflexivity.
Defined.

(** ** When a file is accepted *)

Lemma descent_ok_head_le levels k :
  descent_ok 0 levels → head levels = Some k → k ≤ 1.
Proof. destruct levels as [|k' levels]; [done|]. intros [Hk _] [= <-]. lia. Qed.

(** X2: for a target level of at least 0, a file is accepted exactly when
    its first line is not a marker line, its titles obey the nesting rule
    from level 0 on, and every adjusted level is below the length of the
    style table. *)
Theorem load_succeeds_iff
    (filename : str) (title_level : Z) (styles : list ascii)
    (first : str) (rest : list str) :
  styles ≠ [] → 0 ≤ title_level →
  (∃ text,
     load_with_adjusted_titles filename title_level styles (first :: rest)
     = Return text)
  ↔ title_regex_match styles first = false
    ∧ descent_ok 0 (title_levels styles first rest)
    ∧ Forall (λ j, title_level + j
                   - default 0 (head (title_levels styles first rest))
                   < Z.of_nat (length styles))
        (title_levels styles first rest).
Proof.
  intros Hne HL. split.
  - intros [text (Hm & Hd & Hr & _)%load_Return_inv].
    split_and!; [done..|]. eapply Forall_impl; [exact Hr|]. cbn. lia.
  - intros (Hm & Hd & Hr).
    rewrite load_for_lines by done. cbn [for_lines].
    rewrite loop_body_text by done. cbn.
    destruct (scan_Return filename title_level styles rest (1 + 1)
                (keep_as_text first initial_locals) first
                (default 0 (head (title_levels styles first rest))))
      as [st' Hst']; [done | | done | |].
    + unfold offset_agrees. cbn. by destruct (title_levels styles first rest).
    + pose proof (title_levels_range styles first rest) as Hj.
      assert (0 < Z.of_nat (length styles)) by (destruct styles; [done|cbn; lia]).
      destruct (title_levels styles first rest) as [|k levels]; [constructor|].
      cbn in *. destruct Hd as [Hk _].
      rewrite Forall_forall in *. intros j Hin.
      specialize (Hr j Hin). specialize (Hj j Hin). lia.
    + rewrite Hst'. cbn. by eexists.
Qed.

Lemma load_succeeds_iff_witness :
  (∃ text,
     load_with_adjusted_titles (lit "f.rst") 1 styles4
       (ln "Top" :: [ln "==="; ln "Sub"; ln "---"]) = Return text)
  ↔ title_regex_match styles4 (ln "Top") = false
    ∧ descent_ok 0 (title_levels styles4 (ln "Top") [ln "==="; ln "Sub"; ln "---"])
    ∧ Forall (λ j, 1 + j
                   - default 0 (head (title_levels styles4 (ln "Top")
                                        [ln "==="; ln "Sub"; ln "---"]))
                   < Z.of_nat (length styles4))
        (title_levels styles4 (ln "Top") [ln "==="; ln "Sub"; ln "---"]).
Proof. apply load_succeeds_iff; [done | lia]. Defined.

(** X3: a file with a title is accepted only at a target level that is a
    valid subscript of the style table, negative ones included, and only
    when its first title uses the first or the second style. *)
Theorem load_level_bounds
    (filename : str) (title_level : Z) (styles : list ascii)
    (lines : list str) (text : str) (k : Z) :
  load_with_adjusted_titles filename title_level styles lines = Return text →
  head (file_title_levels styles lines) = Some k →
  - Z.of_nat (length styles) ≤ title_level < Z.of_nat (length styles)
  ∧ 0 ≤ k ≤ 1.
Proof.
  destruct lines as [|first rest]; [done|].
  intros (_ & Hd & Hr & _)%load_Return_inv Hk. cbn in Hk.
  pose proof (title_levels_range styles first rest) as Hj.
  pose proof (descent_ok_head_le _ _ Hd Hk).
  destruct (title_levels styles first rest) as [|k' levels]; [done|].
  injection Hk as ->. apply Forall_cons in Hr as [Hr _], Hj as [Hj _].
  cbn in Hr. lia.
Qed.

Lemma load_level_bounds_witness :
  - Z.of_nat (length styles4) ≤ 1 < Z.of_nat (length styles4) ∧ 0 ≤ 0 ≤ 1.
Proof.
  apply (load_level_bounds (lit "f.rst") 1 styles4
           [ln "Top"; ln "==="; ln "Sub"; ln "---"]
           (join [ln "Top"; ln "---"; ln "Sub"; ln "~~~"]) 0);
    reflexivity.
Defined.

(** ** What the adjustment leaves alone *)

Lemma replace_same_or_styles styles c c' s :
  c ∈ styles → c' ∈ styles →
  Forall2 (same_or_styles styles) s (replace c c' s).
Proof.
  intros Hc Hc'. unfold replace.
  induction s as [|x s IH]; cbn; constructor; [|done].
  destruct (Ascii.eqb_spec x c) as [->|_]; [by right | by left].
Qed.

Lemma same_or_styles_refl styles s : Forall2 (same_or_styles styles) s s.
Proof. apply Forall_Forall2_diag, Forall_forall. intros c _. by left. Qed.

Lemma restyle_same_or_styles styles prev a line :
  underlines styles prev line = true →
  Forall2 (same_or_styles styles) line (restyle styles a line).
Proof.
  intros [Hm _]%andb_true_iff.
  destruct (title_regex_match_head _ _ Hm) as (c & Hc & Hin).
  unfold restyle. rewrite Hc. apply replace_same_or_styles; [done|].
  destruct (subscript styles a) as [c'|] eqn:Hs; cbn; [|done].
  by eapply subscript_elem_of.
Qed.

Lemma adjusted_lines_same_or_styles styles title_level k prev lines :
  Forall2 (same_or_styles styles) (join lines)
    (join (adjusted_lines styles title_level k prev lines)).
Proof.
  revert prev. induction lines as [|line rest IH]; intros prev; [constructor|].
  cbn [adjusted_lines]. unfold join in *. cbn [concat].
  destruct (underlines styles prev line) eqn:Hu.
  - apply Forall2_app; [by eapply restyle_same_or_styles | apply IH].
  - apply Forall2_app; [apply same_or_styles_refl | apply IH].
Qed.

Lemma load_same_or_styles
    (filename : str) (title_level : Z) (styles : list ascii)
    (lines : list str) (text : str) :
  load_with_adjusted_titles filename title_level styles lines = Return text →
  Forall2 (same_or_styles styles) (join lines) text.
Proof.
  intros Hload. destruct lines as [|first rest].
  - unfold load_with_adjusted_titles in Hload. destruct styles; [done|].
    injection Hload as <-. constructor.
  - apply load_Return_inv in Hload as (_ & _ & _ & ->).
    unfold join. cbn [concat].
    apply Forall2_app; [apply same_or_styles_refl|].
    apply adjusted_lines_same_or_styles.
Qed.

(** X4: the text returned has the length of the file, and differs from it
    only where a style character has been replaced by a style character. *)
Theorem load_changes_style_characters_only
    (filename : str) (title_level : Z) (styles : list ascii)
    (lines : list str) (text : str) :
  load_with_adjusted_titles filename title_level styles lines = Return text →
  Forall2 (same_or_styles styles) (join lines) text
  ∧ length text = length (join lines).
Proof.
  intros Hload%load_same_or_styles.
  split; [done|]. symmetry. by eapply Forall2_length.
Qed.

Lemma load_changes_style_characters_only_witness :
  Forall2 (same_or_styles styles4)
    (join [ln "Top"; ln "==="; ln "Sub"; ln "---"])
    (join [ln "Top"; ln "---"; ln "Sub"; ln "~~~"])
  ∧ length (join [ln "Top"; ln "---"; ln "Sub"; ln "~~~"])
    = length (join [ln "Top"; ln "==="; ln "Sub"; ln "---"]).
Proof.
  by apply (load_changes_style_characters_only (lit "f.rst") 1 styles4).
Defined.

(** ** The exceptions of a load *)

Section load_exceptions.
Context (filename : str) (title_level : Z) (styles : list ascii).
Hypothesis title_level_nonneg : 0 ≤ title_level.

Lemma loop_body_Raise i line st e :
  locals_ok styles st →
  loop_body filename title_level styles i line st = Raise e →
  (e = TypeError ∧ prev_non_title_line st = None
   ∧ title_regex_match styles line = true)
  ∨ (∃ c p, e = Exception (BadTitleLevel filename (i + 1) c styles p))
  ∨ e = Exception (SubTitleTooLow filename (i + 1)).
Proof.
  intros (Hp0 & Hp & Hnone & Hk). unfold loop_body.
  destruct (title_regex_match styles line) eqn:Hm; [|done]. cbn.
  destruct (prev_non_title_line st) as [prev|] eqn:Hprev; cbn;
    [|intros [= <-]; by left].
  case_bool_decide; [done|].
  destruct (title_regex_match_level _ _ Hm) as (c & j & Hc & Hj).
  pose proof (index_range _ _ _ Hj) as [Hjr _].
  destruct (decide (j ≤ prev_line_title_level st + 1)) as [Hle|Hgt].
  - destruct (decide (title_level + j - offset_at st j
                      < Z.of_nat (length styles))) as [Hlt|Hge].
    + rewrite (adjust_title_rewrite _ _ _ _ _ _ c j) by done.
      case_bool_decide; [done|].
      destruct (subscript_range_Some styles
                  (title_level + j - offset_at st j)) as [c' ->]; [|done].
      unfold offset_at in *.
      destruct (file_offset st) as [k|] eqn:Hfo; cbn in *.
      * destruct (Hk k eq_refl). lia.
      * lia.
    + rewrite (adjust_title_exhausted _ _ _ _ _ _ c j) by first [done | lia].
      intros [= <-]. by right; right.
  - rewrite (adjust_title_descent _ _ _ _ _ _ c j) by first [done | lia].
    destruct (subscript_range_Some styles (prev_line_title_level st))
      as [p ->]; [lia|].
    cbn. intros [= <-]. right; left. by exists c, p.
Qed.

Lemma loop_body_prev_non_title_line i line st st' :
  loop_body filename title_level styles i line st = Return st' →
  is_Some (prev_non_title_line st').
Proof.
  unfold loop_body. destruct (negb _); [by intros [= <-]|].
  destruct (prev_non_title_line st) as [prev|] eqn:Hprev; cbn; [|done].
  case_bool_decide; [by intros [= <-]|]. unfold adjust_title.
  destruct (head line) as [c|]; cbn; [|done].
  destruct (index styles c) as [j|]; cbn; [|done].
  case_bool_decide; [by destruct (subscript styles _)|].
  case_bool_decide; [done|].
  case_bool_decide; [intros [= <-]; cbn; by rewrite Hprev|].
  destruct (subscript styles _); cbn; [|done].
  intros [= <-]. cbn. by rewrite Hprev.
Qed.

Lemma for_lines_Raise i lines st e :
  locals_ok styles st → is_Some (prev_non_title_line st) →
  for_lines filename title_level styles i lines st = Raise e →
  ∃ n, i < n ≤ i + Z.of_nat (length lines)
       ∧ ((∃ c p, e = Exception (BadTitleLevel filename n c styles p))
          ∨ e = Exception (SubTitleTooLow filename n)).
Proof.
  revert i st. induction lines as [|line rest IH]; intros i st Hok Hprev; [done|].
  cbn [for_lines].
  destruct (loop_body filename title_level styles i line st) as [st1|e1] eqn:H1;
    cbn.
  - intros He. destruct (IH (i + 1) st1) as (n & Hn & Hcase); [| |done|].
    + by eapply loop_body_ok.
    + by eapply loop_body_prev_non_title_line.
    + exists n. split; [cbn [length]; lia | done].
  - intros [= <-].
    apply loop_body_Raise in H1 as [(_ & Hnone & _)|H1]; [| |done].
    + rewrite Hnone in Hprev. by destruct Hprev.
    + exists (i + 1). split; [cbn [length]; lia|].
      destruct H1 as [H1| ->]; [by left | by right].
Qed.
End load_exceptions.

(** X5: with a target level of at least 0 a load raises nothing but: the
    regular-expression error, for an empty style table; the [TypeError],
    when the first line is a marker line; and the two title errors, which
    carry the file name and a number between 3 and one more than the number
    of lines.  No subscript or [index] call fails. *)
Theorem load_raises_only
    (filename : str) (title_level : Z) (styles : list ascii)
    (lines : list str) (e : exn) :
  0 ≤ title_level →
  load_with_adjusted_titles filename title_level styles lines = Raise e →
  (e = ReError ∧ styles = [])
  ∨ (e = TypeError
     ∧ ∃ first rest, lines = first :: rest
                     ∧ title_regex_match styles first = true)
  ∨ ∃ n, 3 ≤ n ≤ Z.of_nat (length lines) + 1
         ∧ ((∃ c p, e = Exception (BadTitleLevel filename n c styles p))
            ∨ e = Exception (SubTitleTooLow filename n)).
Proof.
  intros HL. unfold load_with_adjusted_titles.
  destruct styles as [|s0 styles'] eqn:Hs; [intros [= <-]; by left|].
  rewrite <- Hs. clear Hs.
  destruct lines as [|first rest]; [done|]. cbn [for_lines].
  destruct (loop_body filename title_level styles 1 first initial_locals)
    as [st1|e1] eqn:H1; cbn.
  - destruct (for_lines _ _ _ _ rest st1) as [st'|e'] eqn:Hrest; cbn; [done|].
    intros [= <-]. right; right.
    destruct (for_lines_Raise filename title_level styles HL (1 + 1) rest st1 e')
      as (n & Hn & Hcase); [| |done|].
    + eapply loop_body_ok; [apply initial_locals_ok | done].
    + by eapply loop_body_prev_non_title_line.
    + exists n. split; [cbn [length]; lia | done].
  - intros [= <-]. right; left.
    pose proof H1 as H1'.
    apply loop_body_Raise in H1 as [(-> & _ & Hm)|H1];
      [by eauto | | done | apply initial_locals_ok].
    exfalso. unfold loop_body in H1'. cbn in H1'.
    destruct (title_regex_match styles first); cbn in H1'; [|done].
    injection H1' as <-. by destruct H1 as [(c & p & H1)|H1].
Qed.

Lemma load_raises_only_witness :
  (Exception (SubTitleTooLow (lit "f.rst") 5) = ReError ∧ styles4 = [])
  ∨ (Exception (SubTitleTooLow (lit "f.rst") 5) = TypeError
     ∧ ∃ first rest, [ln "Top"; ln "==="; ln "Sub"; ln "---"] = first :: rest
                     ∧ title_regex_match styles4 first = true)
  ∨ ∃ n, 3 ≤ n
           ≤ Z.of_nat (length [ln "Top"; ln "==="; ln "Sub"; ln "---"]) + 1
         ∧ ((∃ c p, Exception (SubTitleTooLow (lit "f.rst") 5)
                    = Exception (BadTitleLevel (lit "f.rst") n c styles4 p))
            ∨ Exception (SubTitleTooLow (lit "f.rst") 5)
              = Exception (SubTitleTooLow (lit "f.rst") n)).
Proof.
  apply (load_raises_only (lit "f.rst") 3 styles4
           [ln "Top"; ln "==="; ln "Sub"; ln "---"]); [lia | reflexivity].
Defined.

(** ** Reading a file in two parts *)

(** X6: the lines are handled in order, each at once.  An exception
    raised for the first lines of a file is the exception raised for the
    file; and when the file is accepted its first lines are accepted on
    their own, giving the beginning of the text. *)
Theorem load_prefix
    (filename : str) (title_level : Z) (styles : list ascii)
    (pre post : list str) :
  (∀ e, load_with_adjusted_titles filename title_level styles pre = Raise e →
        load_with_adjusted_titles filename title_level styles (pre ++ post)
        = Raise e)
  ∧ (∀ text,
       load_with_adjusted_titles filename title_level styles (pre ++ post)
       = Return text →
       ∃ text_pre text_post,
         load_with_adjusted_titles filename title_level styles pre
         = Return text_pre
         ∧ text = text_pre ++ text_post
         ∧ length text_pre = length (join pre)).
Proof.
  destruct (decide (styles = [])) as [->|Hne]; [by split|].
  rewrite !load_for_lines by done. rewrite for_lines_app.
  destruct (for_lines filename title_level styles 1 pre initial_locals)
    as [st|e0] eqn:Hpre; cbn.
  - split; [done|]. intros text.
    destruct (for_lines _ _ _ _ post st) as [st'|] eqn:Hpost; cbn; [|done].
    intros [= <-].
    apply for_lines_rst_lines in Hpost as (more & -> & _).
    exists (join (rst_lines st)), (join more). split_and!; [done | |].
    + unfold join. by rewrite concat_app.
    + assert (load_with_adjusted_titles filename title_level styles pre
              = Return (join (rst_lines st))) as Hload.
      { rewrite load_for_lines by done. by rewrite Hpre. }
      apply load_same_or_styles in Hload. symmetry. by eapply Forall2_length.
  - by split.
Qed.

Lemma load_prefix_witness :
  load_with_adjusted_titles (lit "f.rst") 0 styles4
    ([ln "Top"; ln "==="; ln "Deep"; ln "~~~~"] ++ [ln "more"])
  = Raise (Exception (BadTitleLevel (lit "f.rst") 5 "~" styles4 "="))
  ∧ ∃ text_pre text_post,
      load_with_adjusted_titles (lit "f.rst") 1 styles4 [ln "Top"; ln "==="]
      = Return text_pre
      ∧ join [ln "Top"; ln "---"; ln "Sub"; ln "~~~"] = text_pre ++ text_post
      ∧ length text_pre = length (join [ln "Top"; ln "==="]).
Proof.
  split.
  - apply (proj1 (load_prefix (lit "f.rst") 0 styles4
                    [ln "Top"; ln "==="; ln "Deep"; ln "~~~~"] [ln "more"])).
    reflexivity.
  - apply (proj2 (load_prefix (lit "f.rst") 1 styles4
                    [ln "Top"; ln "==="] [ln "Sub"; ln "---"])).
    reflexivity.
Defined.

(** * Further properties of [fix_relative_titles] *)

Section relative_more.
Context (tgt : target).

Local Abbreviation rel_chars := (relative_title_chars tgt).
Local Abbreviation table := (title_styles tgt).

Lemma fix_lines_no_relative cur lines :
  Forall (λ l, title_regex_match rel_chars l = false) lines →
  fix_lines tgt cur lines = Return lines.
Proof.
  intros H. revert cur. induction H as [|line rest Hl _ IH]; intros cur; [done|].
  cbn [fix_lines]. rewrite Hl. cbn. by rewrite IH.
Qed.

Lemma fix_lines_ValueError pre line post :
  Forall (λ l, is_absolute_title tgt l = false) pre →
  title_regex_match rel_chars line = true →
  fix_lines tgt None (pre ++ line :: post) = Raise ValueError.
Proof.
  intros Hpre Hline. induction Hpre as [|l pre Hl _ IH]; cbn [app fix_lines].
  - rewrite Hline. cbn. unfold fix_relative_line.
    destruct (title_regex_match_head _ _ Hline) as (r & -> & _). done.
  - unfold is_absolute_title in Hl.
    destruct (title_regex_match rel_chars l) eqn:Hrel; cbn in *.
    + unfold fix_relative_line.
      destruct (title_regex_match_head _ _ Hrel) as (r & -> & _). done.
    + rewrite Hl, IH. done.
Qed.

Lemma relative_char_cases r :
  r ∈ rel_chars →
  r = subtitle (relative_title_styles tgt)
  ∨ r = sametitle (relative_title_styles tgt)
  ∨ r = supertitle (relative_title_styles tgt).
Proof.
  unfold relative_title_chars. rewrite !elem_of_cons, elem_of_nil. tauto.
Qed.

(** What [fix_relative_line] does to a relative title line, once the
    current style is one of the table. *)
Lemma fix_relative_line_cases cur line :
  title_regex_match rel_chars line = true →
  (∀ c, cur = Some c → c ∈ table) →
  (fix_relative_line tgt cur line = Raise ValueError ∧ cur = None)
  ∨ fix_relative_line tgt cur line = Raise (Exception CannotGoLower)
  ∨ fix_relative_line tgt cur line = Raise (Exception CannotGoHigher)
  ∨ ∃ r c', head line = Some r ∧ r ∈ rel_chars ∧ c' ∈ table
            ∧ fix_relative_line tgt cur line = Return (replace r c' line).
Proof.
  intros Hm Hcur. unfold fix_relative_line.
  destruct (title_regex_match_head _ _ Hm) as (r & Hr & Hin). rewrite Hr. cbn.
  destruct cur as [c|]; cbn; [|by left].
  destruct (index_elem_of _ _ (Hcur c eq_refl)) as [n Hn]. rewrite Hn. cbn.
  pose proof (index_range _ _ _ Hn) as [Hnr _].
  assert (∀ a, 0 ≤ a < Z.of_nat (length table) →
               ∃ c', subscript table a = Some c' ∧ c' ∈ table) as Hsub.
  { intros a Ha. destruct (subscript_range_Some table a) as [c' Hc']; [lia|].
    exists c'. split; [done|]. by eapply subscript_elem_of. }
  destruct (Ascii.eqb r (subtitle (relative_title_styles tgt))) eqn:E1.
  { case_bool_decide; [by right; left|].
    destruct (Hsub (n + 1)) as (c' & -> & Hc'); [lia|].
    right; right; right. by exists r, c'. }
  destruct (Ascii.eqb r (sametitle (relative_title_styles tgt))) eqn:E2.
  { destruct (Hsub n) as (c' & -> & Hc'); [lia|].
    right; right; right. by exists r, c'. }
  destruct (Ascii.eqb r (supertitle (relative_title_styles tgt))) eqn:E3.
  { case_bool_decide; [by right; right; left|].
    destruct (Hsub (n - 1)) as (c' & -> & Hc'); [lia|].
    right; right; right. by exists r, c'. }
  apply Ascii.eqb_neq in E1, E2, E3.
  by destruct (relative_char_cases r Hin) as [?|[?|?]].
Qed.

Lemma fix_lines_Return cur lines out :
  (∀ c, cur = Some c → c ∈ table) →
  fix_lines tgt cur lines = Return out →
  Forall2 (fixed_line tgt) lines out.
Proof.
  revert cur out. induction lines as [|line rest IH]; intros cur out Hcur.
  - intros [= <-]. constructor.
  - cbn [fix_lines].
    destruct (title_regex_match rel_chars line) eqn:Hrel; cbn.
    + destruct (fix_relative_line_cases cur line Hrel Hcur)
        as [[-> _]|[->|[->|(r & c' & Hr & Hin & Hc' & ->)]]]; [done..|].
      cbn. destruct (fix_lines tgt cur rest) as [out'|] eqn:Hrest; cbn; [|done].
      intros [= <-]. constructor; [|by eapply IH].
      unfold fixed_line. rewrite Hrel. by exists r, c'.
    + destruct (fix_lines tgt _ rest) as [out'|] eqn:Hrest; cbn; [|done].
      intros [= <-]. constructor.
      * unfold fixed_line. by rewrite Hrel.
      * eapply IH; [|done]. intros c.
        destruct (title_regex_match table line) eqn:Htitle; [|by apply Hcur].
        destruct (title_regex_match_head _ _ Htitle) as (c0 & -> & Hin).
        by intros [= <-].
Qed.

Lemma fix_lines_Raise cur lines e :
  (∀ c, cur = Some c → c ∈ table) →
  fix_lines tgt cur lines = Raise e →
  e = ValueError ∨ e = Exception CannotGoLower ∨ e = Exception CannotGoHigher.
Proof.
  revert cur. induction lines as [|line rest IH]; intros cur Hcur; [done|].
  cbn [fix_lines].
  destruct (title_regex_match rel_chars line) eqn:Hrel; cbn.
  - destruct (fix_relative_line_cases cur line Hrel Hcur)
      as [[-> _]|[->|[->|(r & c' & Hr & Hin & Hc' & ->)]]]; cbn.
    + intros [= <-]. by left.
    + intros [= <-]. by right; left.
    + intros [= <-]. by right; right.
    + destruct (fix_lines tgt cur rest) as [out'|] eqn:Hrest; cbn; [done|].
      intros [= <-]. by eapply IH.
  - destruct (fix_lines tgt _ rest) as [out'|] eqn:Hrest; cbn; [done|].
    intros [= <-]. eapply IH; [|done]. intros c.
    destruct (title_regex_match table line) eqn:Htitle; [|by apply Hcur].
    destruct (title_regex_match_head _ _ Htitle) as (c0 & -> & Hin).
    by intros [= <-].
Qed.
End relative_more.

(** X7: a document without relative title lines goes through
    [fix_relative_titles] unchanged. *)
Theorem fix_relative_titles_no_relative (tgt : target) (infile : str) :
  title_styles tgt ≠ [] →
  Forall (λ l, title_regex_match (relative_title_chars tgt) l = false)
    (readlines infile) →
  fix_relative_titles tgt infile = Return infile.
Proof.
  intros Hne Hall. unfold fix_relative_titles.
  destruct (title_styles tgt); [done|].
  rewrite fix_lines_no_relative by done. cbn. by rewrite join_readlines.
Qed.

Lemma fix_relative_titles_no_relative_witness :
  fix_relative_titles (Target styles4 rel3) (join [ln "A"; ln "---"; ln "B"])
  = Return (join [ln "A"; ln "---"; ln "B"]).
Proof.
  apply fix_relative_titles_no_relative; [done|]. by repeat constructor.
Defined.

(** X8: a relative title line that comes before any absolute title line
    makes [fix_relative_titles] end in the [ValueError] of
    [title_styles.index(None)]. *)
Theorem relative_title_before_any_title
    (tgt : target) (infile : str) (pre : list str) (line : str)
    (post : list str) :
  title_styles tgt ≠ [] →
  readlines infile = pre ++ line :: post →
  Forall (λ l, is_absolute_title tgt l = false) pre →
  title_regex_match (relative_title_chars tgt) line = true →
  fix_relative_titles tgt infile = Raise ValueError.
Proof.
  intros Hne Hlines Hpre Hline. unfold fix_relative_titles.
  destruct (title_styles tgt); [done|].
  by rewrite Hlines, fix_lines_ValueError.
Qed.

Lemma relative_title_before_any_title_witness :
  fix_relative_titles (Target styles4 rel3)
    (join [ln "Intro"; ln "<<<"; ln "A"; ln "==="])
  = Raise ValueError.
Proof.
  apply (relative_title_before_any_title (Target styles4 rel3) _
           [ln "Intro"] (ln "<<<") [ln "A"; ln "==="]);
    [done | reflexivity | by repeat constructor | reflexivity].
Defined.

(** X9: [fix_relative_titles] raises nothing but the regular-expression
    error, for an empty style table, the [ValueError] of a relative title
    line met before any absolute title line, and its two errors for a
    title below the last style or above the first.  Its
    "unknown relative line char" error is never raised, and no subscript
    fails. *)
Theorem fix_relative_titles_raises_only (tgt : target) (infile : str) (e : exn) :
  fix_relative_titles tgt infile = Raise e →
  (e = ReError ∧ title_styles tgt = [])
  ∨ e = ValueError
  ∨ e = Exception CannotGoLower
  ∨ e = Exception CannotGoHigher.
Proof.
  unfold fix_relative_titles.
  destruct (title_styles tgt) as [|s0 styles'] eqn:Hs; [intros [= <-]; by left|].
  destruct (fix_lines tgt None (readlines infile)) as [out|e'] eqn:Hfix; cbn;
    [done|].
  intros [= <-]. right.
  by apply (fix_lines_Raise tgt None (readlines infile) e').
Qed.

Lemma fix_relative_titles_raises_only_witness :
  (Exception CannotGoLower = ReError ∧ title_styles (Target styles4 rel3) = [])
  ∨ Exception CannotGoLower = ValueError
  ∨ Exception CannotGoLower = Exception CannotGoLower
  ∨ Exception CannotGoLower = Exception CannotGoHigher.
Proof.
  apply (fix_relative_titles_raises_only (Target styles4 rel3)
           (join [ln "A"; ln "+++"; ln "B"; ln "<<<"])).
  reflexivity.
Defined.

Lemma file_lines_Forall2 ls ls' :
  Forall2 (λ l l', (terminated l → terminated l')
                   ∧ (unterminated l → unterminated l')) ls ls' →
  file_lines ls → file_lines ls'.
Proof.
  induction 1 as [|l l' ls ls' [Ht Hu] Hrest IH]; [done|].
  destruct Hrest as [|x y xs ys Hxy Hrest].
  - cbn. intros [?|?]; [left | right]; auto.
  - intros [Hl Hfl]. split; [by apply Ht | by apply IH].
Qed.

Lemma fixed_line_file_line tgt l l' :
  NL ∉ relative_title_chars tgt → NL ∉ title_styles tgt →
  fixed_line tgt l l' →
  (terminated l → terminated l') ∧ (unterminated l → unterminated l').
Proof.
  intros Hrel Hsty. unfold fixed_line.
  destruct (title_regex_match _ l); [|by intros ->].
  intros (r & c' & _ & Hr & Hc' & ->).
  assert (r ≠ NL) by (by intros ->). assert (c' ≠ NL) by (by intros ->).
  split; [by apply replace_terminated | by apply replace_unterminated].
Qed.

Lemma fixed_line_length tgt l l' : fixed_line tgt l l' → length l' = length l.
Proof.
  unfold fixed_line. destruct (title_regex_match _ l); [|by intros ->].
  intros (r & c' & _ & _ & _ & ->). apply replace_length.
Qed.

Lemma fixed_line_no_relative tgt l l' :
  (∀ c, c ∈ relative_title_chars tgt → c ∉ title_styles tgt) →
  fixed_line tgt l l' →
  title_regex_match (relative_title_chars tgt) l' = false.
Proof.
  intros Hdisj. unfold fixed_line.
  destruct (title_regex_match _ l) eqn:Hrel; [|by intros ->].
  intros (r & c' & Hr & _ & Hc' & ->).
  apply not_true_is_false. intros (c & Hc & Hin)%title_regex_match_head.
  rewrite (replace_head _ _ _ Hr) in Hc. injection Hc as ->.
  by apply (Hdisj c).
Qed.

Lemma fix_relative_titles_Return tgt infile out :
  fix_relative_titles tgt infile = Return out →
  title_styles tgt ≠ []
  ∧ ∃ lines', out = join lines'
              ∧ Forall2 (fixed_line tgt) (readlines infile) lines'.
Proof.
  unfold fix_relative_titles.
  destruct (title_styles tgt) eqn:Hs; [done|].
  destruct (fix_lines tgt None (readlines infile)) as [lines'|] eqn:Hfix; cbn;
    [|done].
  intros [= <-]. split; [done|]. exists lines'. split; [done|].
  by apply (fix_lines_Return tgt None).
Qed.

(** X10: [fix_relative_titles] writes as many lines as it reads; a line
    that is not a relative title line is written as it is, and a relative
    title line is written with its first character replaced throughout by
    a style of the table, so the document keeps its length. *)
Theorem fix_relative_titles_lines (tgt : target) (infile out : str) :
  fix_relative_titles tgt infile = Return out →
  ∃ lines',
    out = join lines'
    ∧ Forall2 (fixed_line tgt) (readlines infile) lines'
    ∧ length out = length infile.
Proof.
  intros (_ & lines' & -> & Hall)%fix_relative_titles_Return.
  exists lines'. split_and!; [done..|].
  rewrite <- (join_readlines infile). unfold join.
  revert Hall. generalize (readlines infile). intros lines Hall.
  induction Hall as [|l l' ls ls' Hl _ IH]; [done|].
  cbn. rewrite !length_app, IH. f_equal. by eapply fixed_line_length.
Qed.

Lemma fix_relative_titles_lines_witness :
  ∃ lines',
    join [ln "A"; ln "---"; ln "B"; ln "~~~"] = join lines'
    ∧ Forall2 (fixed_line (Target styles4 rel3))
        (readlines (join [ln "A"; ln "---"; ln "B"; ln "<<<"])) lines'
    ∧ length (join [ln "A"; ln "---"; ln "B"; ln "~~~"])
      = length (join [ln "A"; ln "---"; ln "B"; ln "<<<"]).
Proof.
  apply (fix_relative_titles_lines (Target styles4 rel3)). reflexivity.
Defined.

(** X11: when no relative character is a style of the table, and the
    newline is neither, the document written contains no relative title
    line, and running [fix_relative_titles] on it again returns it
    unchanged. *)
Theorem fix_relative_titles_idempotent (tgt : target) (infile out : str) :
  (∀ c, c ∈ relative_title_chars tgt → c ∉ title_styles tgt) →
  NL ∉ relative_title_chars tgt → NL ∉ title_styles tgt →
  fix_relative_titles tgt infile = Return out →
  Forall (λ l, title_regex_match (relative_title_chars tgt) l = false)
    (readlines out)
  ∧ fix_relative_titles tgt out = Return out.
Proof.
  intros Hdisj Hrel Hsty (Hne & lines' & -> & Hall)%fix_relative_titles_Return.
  assert (readlines (join lines') = lines') as Hread.
  { apply readlines_join.
    apply (file_lines_Forall2 (readlines infile)); [|apply file_lines_readlines].
    eapply Forall2_impl; [exact Hall|].
    intros l l'. by apply fixed_line_file_line. }
  assert (Forall (λ l, title_regex_match (relative_title_chars tgt) l = false)
            lines') as Hnone.
  { clear Hread. induction Hall as [|l l' ls ls' Hl _ IH]; constructor; [|done].
    by eapply fixed_line_no_relative. }
  split; [by rewrite Hread|].
  unfold fix_relative_titles. destruct (title_styles tgt); [done|].
  by rewrite Hread, fix_lines_no_relative.
Qed.

Lemma rel3_not_styles4 :
  ∀ c, c ∈ relative_title_chars (Target styles4 rel3) →
       c ∉ title_styles (Target styles4 rel3).
Proof.
  intros c. unfold relative_title_chars. cbn. unfold styles4.
  rewrite !elem_of_cons, !elem_of_nil. intros [->|[->|[->|[]]]];
    intros Hin; rewrite ?elem_of_cons, ?elem_of_nil in Hin;
    repeat destruct Hin as [Hin|Hin]; done.
Qed.

Lemma fix_relative_titles_idempotent_witness :
  Forall (λ l, title_regex_match
                 (relative_title_chars (Target styles4 rel3)) l = false)
    (readlines (join [ln "A"; ln "---"; ln "B"; ln "~~~"]))
  ∧ fix_relative_titles (Target styles4 rel3)
      (join [ln "A"; ln "---"; ln "B"; ln "~~~"])
    = Return (join [ln "A"; ln "---"; ln "B"; ln "~~~"]).
Proof.
  apply (fix_relative_titles_idempotent (Target styles4 rel3)
           (join [ln "A"; ln "---"; ln "B"; ln "<<<"])).
  - exact rel3_not_styles4.
  - unfold relative_title_chars. cbn. rewrite !elem_of_cons, elem_of_nil.
    intros Hin; repeat destruct Hin as [Hin|Hin]; done.
  - exact styles4_no_NL.
  - reflexivity.
Defined.

(** * Further properties of [get_rst] *)

(** ** Induction on entries *)

Lemma depth_Dict_lt d k f :
  d !! k = Some f → (depth f < depth (Dict d))%nat.
Proof.
  intros Hk. cbn [depth]. apply Nat.lt_succ_r, max_list_elem_of_le.
  apply list_elem_of_fmap. exists (k, depth f). split; [done|].
  apply elem_of_map_to_list. by rewrite lookup_fmap, Hk.
Qed.

Lemma depth_List_lt l f : f ∈ l → (depth f < depth (List l))%nat.
Proof.
  intros Hf. cbn [depth]. apply Nat.lt_succ_r, max_list_elem_of_le.
  apply list_elem_of_fmap. by exists f.
Qed.

Lemma file_info_induction (P : file_info → Prop) :
  (∀ path, P (Basestring path)) →
  (∀ d, (∀ k f, d !! k = Some f → P f) → P (Dict d)) →
  (∀ l, Forall P l → P (List l)) →
  (∀ rendering, P (Other rendering)) →
  ∀ f, P f.
Proof.
  intros Hstr Hdict Hlist Hother.
  assert (∀ n f, (depth f < n)%nat → P f) as H.
  { induction n as [|n IH]; intros f Hn; [lia|].
    destruct f as [path|d|l|r]; [done| | |done].
    - apply Hdict. intros k f Hk. apply IH.
      pose proof (depth_Dict_lt d k f Hk). lia.
    - apply Hlist, Forall_forall. intros f Hf. apply IH.
      pose proof (depth_List_lt l f Hf). lia. }
  intros f. apply (H (S (depth f))). lia.
Qed.

(** ** [mapM] in the [result] monad *)

Lemma mapM_Return_inv {A B} (f : A → result B) (l : list A) (ys : list B) :
  mapM f l = Return ys → Forall2 (λ x y, f x = Return y) l ys.
Proof.
  revert ys. induction l as [|x l IH]; intros ys; cbn.
  - intros [= <-]. constructor.
  - destruct (f x) as [y|] eqn:Hx; cbn; [|done].
    destruct (mapM f l) as [ys'|]; cbn; [|done].
    intros [= <-]. constructor; [done|]. by apply IH.
Qed.

Lemma mapM_result_app {A B} (f : A → result B) (l1 l2 : list A) :
  mapM f (l1 ++ l2)
  = (ys1 ← mapM f l1; ys2 ← mapM f l2; Return (ys1 ++ ys2)).
Proof.
  induction l1 as [|x l1 IH]; cbn.
  - by destruct (mapM f l2).
  - destruct (f x) as [y|]; cbn; [|done]. rewrite IH.
    destruct (mapM f l1) as [ys1|]; cbn; [|done].
    by destruct (mapM f l2).
Qed.

Lemma mapM_result_ext {A B} (f g : A → result B) (l : list A) :
  (∀ x, x ∈ l → f x = g x) → mapM f l = mapM g l.
Proof.
  induction l as [|x l IH]; intros H; cbn; [done|].
  rewrite (H x) by by left. rewrite IH; [done|].
  intros y Hy. apply H. by right.
Qed.

(** ** Entries that fail *)

Lemma mapM_Raise {A B} (f : A → result B) (pre : list A) (x : A)
    (post : list A) (ys : list B) (e : exn) :
  Forall2 (λ x y, f x = Return y) pre ys → f x = Raise e →
  mapM f (pre ++ x :: post) = Raise e.
Proof.
  intros Hpre Hx. rewrite mapM_result_app, (mapM_Return _ _ _ Hpre). cbn.
  by rewrite Hx.
Qed.

Lemma elem_of_sorted_keys {A} (d : gmap Z A) (k : Z) :
  k ∈ sorted_keys d ↔ is_Some (d !! k).
Proof.
  unfold sorted_keys. rewrite merge_sort_Permutation, list_elem_of_fmap. split.
  - intros ([k' x] & -> & Hx). apply elem_of_map_to_list in Hx. by eexists.
  - intros [x Hx]. exists (k, x). split; [done|]. by apply elem_of_map_to_list.
Qed.

Lemma concat_nil_Forall {A} (ls : list (list A)) :
  Forall (λ l, l = []) ls → concat ls = [].
Proof. induction 1 as [|l ls -> _ IH]; [done|]. by cbn. Qed.

(** An entry that holds, at any depth, a value that is neither a string, a
    list nor a dict is never resolved to a text. *)
Lemma get_rst_bad_entries fs styles spec_dir adjust_titles (f : file_info) :
  bad_entries f ≠ [] →
  ∀ level text,
    get_rst fs styles spec_dir adjust_titles f level ≠ Return text.
Proof.
  induction f as [path|d IH|l IH|r] using file_info_induction;
    intros Hne level text; cbn [get_rst].
  - done.
  - destruct (mapM _ (sorted_keys d)) as [rst|] eqn:Hrst; cbn; [|done].
    intros _. apply Hne. cbn [bad_entries]. apply concat_nil_Forall.
    apply Forall_forall. intros bs Hbs.
    apply list_elem_of_fmap in Hbs as ([k bs'] & -> & Hk). cbn.
    apply elem_of_map_to_list in Hk. rewrite lookup_fmap in Hk.
    destruct (d !! k) as [f|] eqn:Hf; cbn in Hk; [|done]. injection Hk as <-.
    destruct (bad_entries f) as [|b bs] eqn:Hb; [done|]. exfalso.
    apply mapM_Return_inv in Hrst.
    assert (k ∈ sorted_keys d) as Hin
      by (apply elem_of_sorted_keys; by rewrite Hf).
    apply list_elem_of_lookup in Hin as [i Hi].
    destruct (Forall2_lookup_l _ _ _ _ _ Hrst Hi) as (t & _ & Ht).
    rewrite lookup_fmap, Hf in Ht. cbn in Ht.
    eapply (IH k f Hf); [by rewrite Hb | exact Ht].
  - destruct (mapM _ l) as [rst|] eqn:Hrst; cbn; [|done].
    intros _. apply Hne. cbn [bad_entries]. apply concat_nil_Forall.
    apply Forall_fmap, Forall_forall. intros f Hf. cbn.
    destruct (bad_entries f) as [|b bs] eqn:Hb; [done|]. exfalso.
    apply mapM_Return_inv in Hrst.
    rewrite Forall_forall in IH. specialize (IH f Hf).
    apply list_elem_of_lookup in Hf as [i Hi].
    destruct (Forall2_lookup_l _ _ _ _ _ Hrst Hi) as (t & _ & Ht).
    eapply IH; [by rewrite Hb | exact Ht].
  - done.
Qed.

(** C7: a list resolves every entry at the level of the list and joins the
    texts in list order; a dict resolves the entry under each key at that
    key, whatever the level of the dict, and joins the texts by ascending
    key.  The first entry that fails, in that order, ends the call with its
    exception: nothing is returned for the list or the dict.  Any other
    entry raises the error that carries the entry, and an entry that holds
    such a value at any depth is never resolved to a text. *)
Theorem get_rst_list_dict_other fs styles spec_dir adjust_titles title_level :
  (∀ l texts,
     Forall2 (λ f text,
                get_rst fs styles spec_dir adjust_titles f title_level
                = Return text) l texts →
     get_rst fs styles spec_dir adjust_titles (List l) title_level
     = Return (join texts))
  ∧ (∀ d levels texts,
       Sorted Z.lt levels →
       (∀ k, k ∈ levels ↔ is_Some (d !! k)) →
       Forall2 (λ k text,
                  ∃ f, d !! k = Some f
                       ∧ get_rst fs styles spec_dir adjust_titles f k
                         = Return text) levels texts →
       get_rst fs styles spec_dir adjust_titles (Dict d) title_level
       = Return (join texts))
  ∧ (∀ entry,
       get_rst fs styles spec_dir adjust_titles (Other entry) title_level
       = Raise (Exception (BadFileEntry entry)))
  ∧ (∀ pre f post texts e,
       Forall2 (λ f text,
                  get_rst fs styles spec_dir adjust_titles f title_level
                  = Return text) pre texts →
       get_rst fs styles spec_dir adjust_titles f title_level = Raise e →
       get_rst fs styles spec_dir adjust_titles (List (pre ++ f :: post))
         title_level
       = Raise e)
  ∧ (∀ d levels k later texts f e,
       Sorted Z.lt (levels ++ k :: later) →
       (∀ k', k' ∈ levels ++ k :: later ↔ is_Some (d !! k')) →
       Forall2 (λ k text,
                  ∃ f, d !! k = Some f
                       ∧ get_rst fs styles spec_dir adjust_titles f k
                         = Return text) levels texts →
       d !! k = Some f →
       get_rst fs styles spec_dir adjust_titles f k = Raise e →
       get_rst fs styles spec_dir adjust_titles (Dict d) title_level
       = Raise e)
  ∧ (∀ f level text,
       bad_entries f ≠ [] →
       get_rst fs styles spec_dir adjust_titles f level ≠ Return text).
Proof.
  split_and!.
  - intros l texts H. simpl. by rewrite (mapM_Return _ _ _ H).
  - intros d levels texts Hs Hdom H. simpl.
    rewrite (sorted_keys_unique d levels Hs Hdom).
    erewrite mapM_Return; [done|].
    eapply Forall2_impl; [exact H|]. simpl.
    intros k text (f & Hf & Hr). by rewrite lookup_fmap, Hf.
  - done.
  - intros pre f post texts e Hpre Hf. cbn [get_rst].
    by rewrite (mapM_Raise _ _ _ _ _ _ Hpre Hf).
  - intros d levels k later texts f e Hs Hdom Hpre Hk Hf. cbn [get_rst].
    rewrite (sorted_keys_unique d _ Hs Hdom).
    erewrite mapM_Raise; [done | |].
    + eapply Forall2_impl; [exact Hpre|]. simpl.
      intros k' text (f' & Hf' & Hr). by rewrite lookup_fmap, Hf'.
    + by rewrite lookup_fmap, Hk.
  - intros f level text Hne. by apply get_rst_bad_entries.
Qed.

Lemma get_rst_list_dict_other_witness :
  get_rst two_files styles4 (lit "spec/") true
    (List [Basestring (lit "a.rst"); Basestring (lit "b.rst")]) 1
  = Return (join [join [ln "Alpha"; ln "-----"; [NL]];
                  join [ln "Beta"; ln "----"; [NL]]])
  ∧ get_rst two_files styles4 (lit "spec/") true
      (Dict {[ 2 := Basestring (lit "a.rst"); 0 := Basestring (lit "b.rst") ]}) 1
    = Return (join [join [ln "Beta"; ln "===="; [NL]];
                    join [ln "Alpha"; ln "~~~~~"; [NL]]])
  ∧ get_rst two_files styles4 (lit "spec/") true (Other (lit "42")) 1
    = Raise (Exception (BadFileEntry (lit "42")))
  ∧ get_rst two_files styles4 (lit "spec/") true
      (List ([Basestring (lit "a.rst")]
             ++ Other (lit "42") :: [Basestring (lit "b.rst")])) 1
    = Raise (Exception (BadFileEntry (lit "42")))
  ∧ get_rst two_files styles4 (lit "spec/") true
      (Dict {[ 0 := Basestring (lit "b.rst");
               2 := Basestring (lit "missing.rst");
               3 := Basestring (lit "a.rst") ]}) 1
    = Raise (IOError (lit "spec/missing.rst"))
  ∧ ∀ text,
      get_rst two_files styles4 (lit "spec/") true
        (List [Basestring (lit "a.rst"); List [Other (lit "42")]]) 1
      ≠ Return text.
Proof.
  destruct (get_rst_list_dict_other two_files styles4 (lit "spec/") true 1)
    as (Hlist & Hdict & Hother & Hlist_raise & Hdict_raise & Hbad).
  split_and!.
  - apply Hlist. repeat constructor.
  - apply (Hdict _ [0; 2]).
    + repeat constructor.
    + intros k. rewrite !elem_of_cons, elem_of_nil.
      destruct (decide (k = 0)) as [->|]; [by split; [eexists | left]|].
      destruct (decide (k = 2)) as [->|]; [by split; [eexists | right; left]|].
      rewrite lookup_insert_ne, lookup_singleton_ne by done.
      split; [intros [|[|[]]]; done | by intros []].
    + repeat constructor.
      * by exists (Basestring (lit "b.rst")).
      * by exists (Basestring (lit "a.rst")).
  - apply Hother.
  - apply (Hlist_raise _ _ _ [join [ln "Alpha"; ln "-----"; [NL]]]).
    + repeat constructor.
    + reflexivity.
  - apply (Hdict_raise _ [0] 2 [3] [join [ln "Beta"; ln "===="; [NL]]]
             (Basestring (lit "missing.rst"))).
    + repeat constructor.
    + intros k. cbn [app]. rewrite !elem_of_cons, elem_of_nil.
      rewrite !lookup_insert_is_Some, lookup_singleton_is_Some. lia.
    + repeat constructor. by exists (Basestring (lit "b.rst")).
    + reflexivity.
    + reflexivity.
  - intros text. apply Hbad. discriminate.
Defined.

(** ** The end of the text returned *)

Lemma join_ends_with_blank_line texts :
  Forall ends_with_blank_line texts → ends_with_blank_line (join texts).
Proof.
  unfold join. induction 1 as [|text texts Ht _ IH]; [by left|].
  cbn. destruct IH as [->|[body ->]].
  - by rewrite app_nil_r.
  - right. exists (text ++ body). by rewrite (assoc_L (++)).
Qed.

Lemma get_rst_Return_blank_line
    (fs : str → option str) (styles : list ascii) (spec_dir : str)
    (adjust_titles : bool) (f : file_info) :
  ∀ (title_level : Z) (text : str),
    get_rst fs styles spec_dir adjust_titles f title_level = Return text →
    text = [] ∨ ∃ body, text = body ++ [NL; NL].
Proof.
  change (∀ title_level text,
            get_rst fs styles spec_dir adjust_titles f title_level
            = Return text → ends_with_blank_line text).
  induction f as [path|d IH|l IH|r] using file_info_induction;
    intros title_level text; cbn [get_rst].
  - unfold get_rst_file.
    destruct (fs (spec_dir ++ path)) as [content|]; cbn; [|done].
    destruct (if adjust_titles then _ else _) as [rst|]; cbn; [|done].
    case_bool_decide as Hlast; [done|]. intros [= <-].
    right. by apply last_two_newlines.
  - destruct (mapM _ (sorted_keys d)) as [rst|] eqn:Hrst; cbn; [|done].
    intros [= <-]. apply join_ends_with_blank_line.
    apply mapM_Return_inv in Hrst.
    induction Hrst as [|k t ks ts Hk _ IHrst]; constructor; [|done].
    rewrite lookup_fmap in Hk.
    destruct (d !! k) as [f|] eqn:Hf; cbn in Hk; [|done]. by eapply IH.
  - destruct (mapM _ l) as [rst|] eqn:Hrst; cbn; [|done].
    intros [= <-]. apply join_ends_with_blank_line.
    apply mapM_Return_inv in Hrst.
    induction Hrst as [|f t fs' ts Hf _ IHrst]; constructor.
    + apply Forall_cons in IH as [IHf _]. by eapply IHf.
    + apply IHrst. by apply Forall_cons in IH as [_ ?].
  - done.
Qed.

(** X12: whatever the entry, a list or dict of any depth included, the
    text that [get_rst] returns is empty or ends with two newlines. *)
Theorem get_rst_ends_with_blank_line
    (fs : str → option str) (styles : list ascii) (spec_dir : str)
    (adjust_titles : bool) (f : file_info) (title_level : Z) (text : str) :
  get_rst fs styles spec_dir adjust_titles f title_level = Return text →
  ends_with_blank_line text.
Proof. apply get_rst_Return_blank_line. Qed.

Lemma get_rst_ends_with_blank_line_witness :
  ends_with_blank_line
    (join [join [ln "Beta"; ln "===="; [NL]]; join [ln "Alpha"; ln "~~~~~"; [NL]]]).
Proof.
  apply (get_rst_ends_with_blank_line two_files styles4 (lit "spec/") true
           (Dict {[ 2 := Basestring (lit "a.rst");
                    0 := List [Basestring (lit "b.rst")] ]}) 1).
  vm_compute. reflexivity.
Defined.

(** ** Lists inside lists *)

(** X13: a list that stands as an entry of a list can be replaced by its
    own entries: the text, or the exception, is the same. *)
Theorem get_rst_nested_list
    (fs : str → option str) (styles : list ascii) (spec_dir : str)
    (adjust_titles : bool) (pre inner post : list file_info)
    (title_level : Z) :
  get_rst fs styles spec_dir adjust_titles
    (List (pre ++ List inner :: post)) title_level
  = get_rst fs styles spec_dir adjust_titles
      (List (pre ++ inner ++ post)) title_level.
Proof.
  cbn [get_rst]. rewrite !mapM_result_app. cbn [mapM get_rst].
  destruct (mapM _ pre) as [ys1|]; cbn; [|done].
  destruct (mapM _ inner) as [ys2|]; cbn; [|done].
  destruct (mapM _ post) as [ys3|]; cbn; [|done].
  unfold join. by rewrite !concat_app.
Qed.

(** ** The files read *)

Lemma elem_of_concat_2 {A} (x : A) (l : list A) (ls : list (list A)) :
  l ∈ ls → x ∈ l → x ∈ concat ls.
Proof.
  intros Hl Hx. induction Hl as [|? ? ? _ IH]; cbn;
    apply elem_of_app; [by left | right; by apply IH].
Qed.

Lemma paths_Dict d k f path :
  d !! k = Some f → path ∈ paths f → path ∈ paths (Dict d).
Proof.
  intros Hk Hp. cbn [paths]. apply (elem_of_concat_2 _ (paths f)); [|done].
  apply list_elem_of_fmap. exists (k, paths f).
  split; [done|]. apply elem_of_map_to_list. by rewrite lookup_fmap, Hk.
Qed.

Lemma paths_List l f path : f ∈ l → path ∈ paths f → path ∈ paths (List l).
Proof.
  intros Hf Hp. cbn [paths]. apply (elem_of_concat_2 _ (paths f)); [|done].
  apply list_elem_of_fmap. by exists f.
Qed.

(** X14: [get_rst] depends on the file system only through the files that
    the entry names, looked up under [spec_dir]. *)
Theorem get_rst_reads_named_files
    (fs fs' : str → option str) (styles : list ascii) (spec_dir : str)
    (adjust_titles : bool) (f : file_info) (title_level : Z) :
  (∀ path, path ∈ paths f → fs (spec_dir ++ path) = fs' (spec_dir ++ path)) →
  get_rst fs styles spec_dir adjust_titles f title_level
  = get_rst fs' styles spec_dir adjust_titles f title_level.
Proof.
  revert title_level.
  induction f as [path|d IH|l IH|r] using file_info_induction;
    intros title_level Hfs; cbn [get_rst].
  - unfold get_rst_file. rewrite (Hfs path); [done|]. cbn. by left.
  - f_equal. apply mapM_result_ext. intros k _. rewrite !lookup_fmap.
    destruct (d !! k) as [f|] eqn:Hf; cbn; [|done].
    apply (IH k f Hf). intros path Hp. apply Hfs. by eapply paths_Dict.
  - f_equal. apply mapM_result_ext. intros f Hf.
    rewrite Forall_forall in IH. apply (IH f Hf).
    intros path Hp. apply Hfs. by eapply paths_List.
  - done.
Qed.

Lemma get_rst_reads_named_files_witness :
  get_rst two_files styles4 (lit "spec/") true
    (List [Basestring (lit "a.rst")]) 1
  = get_rst (λ path, if bool_decide (path = lit "spec/a.rst")
                     then Some (join [ln "Alpha"; ln "====="; [NL]])
                     else None)
      styles4 (lit "spec/") true (List [Basestring (lit "a.rst")]) 1.
Proof.
  apply get_rst_reads_named_files. intros path Hp. cbn in Hp.
  apply list_elem_of_singleton in Hp as ->. reflexivity.
Defined.

(** * Properties of [build_spec] *)

Section build_spec_facts.
Context (fs : str → option str) (styles : list ascii).

Local Abbreviation section_of :=
  (λ f, get_rst fs styles (lit "../specification/") true f 0).

Local Opaque lit.

Lemma write_sections_Return files outfile texts :
  mapM section_of files = Return texts →
  write_sections fs styles files outfile = (outfile ++ join texts, None).
Proof.
  revert outfile texts. induction files as [|f files IH]; intros outfile texts.
  - intros [= <-]. cbn. by rewrite app_nil_r.
  - cbn. destruct (get_rst _ _ _ _ f 0) as [t|]; cbn; [|done].
    destruct (mapM _ files) as [ts|] eqn:Hts; cbn; [|done].
    intros [= <-]. rewrite (IH _ ts eq_refl). unfold join. cbn.
    by rewrite (assoc_L (++)).
Qed.

Lemma write_sections_Raise files outfile e :
  mapM section_of files = Raise e →
  ∃ n texts,
    (n < length files)%nat
    ∧ mapM section_of (take n files) = Return texts
    ∧ write_sections fs styles files outfile = (outfile ++ join texts, Some e).
Proof.
  revert outfile. induction files as [|f files IH]; intros outfile; [done|].
  cbn. destruct (get_rst _ _ _ _ f 0) as [t|e'] eqn:Hf; cbn.
  - destruct (mapM _ files) as [ts|e''] eqn:Hts; cbn; [done|].
    intros [= <-].
    destruct (IH (outfile ++ t) eq_refl) as (n & texts & Hn & Htake & ->).
    exists (S n), (t :: texts). split_and!; [lia | |].
    + cbn. by rewrite Hf, Htake.
    + unfold join. cbn. by rewrite (assoc_L (++)).
  - intros [= <-]. exists 0%nat, []. split_and!; [lia | done |].
    by rewrite app_nil_r.
Qed.

Local Transparent lit.
End build_spec_facts.

(** X15: [build_spec] ends as [get_rst] does on the whole [files] list,
    taken at level 0 under [../specification/] with the titles adjusted:
    with the same text written and no exception, or with the same
    exception. *)
Theorem build_spec_as_get_rst (fs : str → option str) (t : build_target) :
  match get_rst fs (title_styles (entries t)) (lit "../specification/") true
          (List (files t)) 0 with
  | Return text => build_spec fs t = (text, None)
  | Raise e => ∃ written, build_spec fs t = (written, Some e)
  end.
Proof.
  unfold build_spec. cbn [get_rst].
  destruct (mapM _ (files t)) as [texts|e] eqn:Hm; cbn.
  - by rewrite (write_sections_Return _ _ _ _ _ Hm).
  - destruct (write_sections_Raise _ _ _ [] _ Hm) as (n & texts & _ & _ & ->).
    by eexists.
Qed.

(** X16: even when an entry fails, what [build_spec] has written is the
    text of the entries before it: the text that [get_rst] returns for a
    beginning of the [files] list, hence empty or ending with two
    newlines. *)
Theorem build_spec_written (fs : str → option str) (t : build_target)
    (written : str) (outcome : option exn) :
  build_spec fs t = (written, outcome) →
  ends_with_blank_line written
  ∧ ∃ n, (n ≤ length (files t))%nat
         ∧ (outcome = None → n = length (files t))
         ∧ get_rst fs (title_styles (entries t)) (lit "../specification/")
             true (List (take n (files t))) 0
           = Return written.
Proof.
  unfold build_spec. intros Hb.
  assert (∃ n, (n ≤ length (files t))%nat
               ∧ (outcome = None → n = length (files t))
               ∧ get_rst fs (title_styles (entries t))
                   (lit "../specification/") true (List (take n (files t))) 0
                 = Return written) as (n & Hn & Hnone & Hget).
  { cbn [get_rst].
    destruct (mapM (λ f, get_rst fs (title_styles (entries t))
                           (lit "../specification/") true f 0) (files t))
      as [texts|e] eqn:Hm.
    - rewrite (write_sections_Return _ _ _ _ _ Hm) in Hb.
      injection Hb as <- <-. exists (length (files t)).
      split_and!; [done..|]. by rewrite firstn_all, Hm.
    - destruct (write_sections_Raise _ _ _ [] _ Hm)
        as (n & texts & Hn & Htake & Hw).
      rewrite Hw in Hb. injection Hb as <- <-. exists n.
      split_and!; [lia | done |]. by rewrite Htake. }
  split; [|by exists n]. by eapply get_rst_Return_blank_line.
Qed.

Lemma build_spec_written_witness :
  ends_with_blank_line (join [ln "Alpha"; ln "====="; [NL]])
  ∧ ∃ n, (n ≤ length [Basestring (lit "a.rst"); Basestring (lit "c.rst")])%nat
         ∧ (Some (IOError (lit "../specification/c.rst")) = None →
            n = length [Basestring (lit "a.rst"); Basestring (lit "c.rst")])
         ∧ get_rst
             (λ path, if bool_decide (path = lit "../specification/a.rst")
                      then Some (join [ln "Alpha"; ln "====="; [NL]])
                      else None)
             styles4 (lit "../specification/") true
             (List (take n [Basestring (lit "a.rst"); Basestring (lit "c.rst")]))
             0
           = Return (join [ln "Alpha"; ln "====="; [NL]]).
Proof.
  apply (build_spec_written
           (λ path, if bool_decide (path = lit "../specification/a.rst")
                    then Some (join [ln "Alpha"; ln "====="; [NL]])
                    else None)
           (BuildTarget (Target styles4 rel3)
              [Basestring (lit "a.rst"); Basestring (lit "c.rst")])).
  reflexivity.
Defined.

(** * Properties of [get_build_target] *)

Section get_build_target_facts.
Context (other_truth : str → bool)
        (iteritems : gmap Z file_info → list (Z * file_info))
        (all_targets : targets_yaml).
Hypothesis iteritems_items : ∀ d, iteritems d ≡ₚ map_to_list d.

Local Abbreviation group_of' := (group_of other_truth all_targets).
Local Abbreviation get_group' := (get_group other_truth all_targets).
Local Abbreviation value' := (resolved_value other_truth all_targets).
Local Abbreviation items' := (resolve_items other_truth all_targets).
Local Abbreviation files' := (resolve_files other_truth iteritems all_targets).
Local Abbreviation expansion' := (expansion other_truth all_targets).

Lemma get_group_group_of s :
  get_group' s = match group_of' s with
                 | Some group => Good group
                 | None => Bad (NoGroup (group_name_of s))
                 end.
Proof.
  unfold get_group, group_of.
  destruct (yaml_groups all_targets !! group_name_of s) as [g|]; [|done].
  by destruct (truth other_truth g).
Qed.

Lemma group_of_truth s group :
  group_of' s = Some group → truth other_truth group = true.
Proof.
  unfold group_of.
  destruct (yaml_groups all_targets !! group_name_of s) as [g|]; [|done].
  destruct (truth other_truth g) eqn:Ht; [|done]. by intros [= <-].
Qed.

Lemma group_id_of_Some v s :
  group_id_of v = Some s ↔ v = Basestring s ∧ is_group_id s = true.
Proof.
  destruct v as [s'| | |]; cbn; try (split; [done | by intros [? _]]).
  destruct (is_group_id s') eqn:Hs; split.
  - by intros [= <-].
  - by intros [[= <-] _].
  - done.
  - intros [[= <-] ?]. congruence.
Qed.

Lemma resolved_value_group v s group :
  group_id_of v = Some s → group_of' s = Some group → value' v = group.
Proof.
  intros [-> Hs]%group_id_of_Some Hg. cbn. by rewrite Hs, Hg.
Qed.

Lemma resolved_value_other v : group_id_of v = None → value' v = v.
Proof.
  destruct v as [s| | |]; cbn; try done. by destruct (is_group_id s).
Qed.

(** One step of the loop over the items of a dict. *)
Lemma resolve_items_cons k v rest f :
  items' ((k, v) :: rest) f
  = match group_id_of v with
    | Some s => group ← get_group' s; items' rest (<[k := group]> f)
    | None => items' rest f
    end.
Proof.
  destruct v as [s| | |]; cbn; try done. by destruct (is_group_id s).
Qed.

(** When every group named by the items exists, the loop replaces the
    value under each of their keys by the resolved value. *)
Lemma resolve_items_Good items f :
  NoDup items.*1 →
  (∀ k v, (k, v) ∈ items → f !! k = Some v) →
  (∀ k v s, (k, v) ∈ items → group_id_of v = Some s → is_Some (group_of' s)) →
  ∃ f', items' items f = Good f'
        ∧ ∀ k, (k ∈ items.*1 → f' !! k = value' <$> f !! k)
               ∧ (k ∉ items.*1 → f' !! k = f !! k).
Proof.
  revert f. induction items as [|[k0 v0] rest IH]; intros f Hnd Hf Hg.
  - exists f. split; [done|]. intros k. split; [by intros ?%elem_of_nil | done].
  - rewrite fmap_cons in Hnd. apply NoDup_cons in Hnd as [Hk0 Hnd].
    assert (∃ f1, items' ((k0, v0) :: rest) f = items' rest f1
                  ∧ f1 = <[k0 := value' v0]> f) as (f1 & -> & Hf1).
    { rewrite resolve_items_cons.
      destruct (group_id_of v0) as [s|] eqn:Hs.
      - destruct (Hg k0 v0 s) as [g Hgs]; [by left | done |].
        rewrite get_group_group_of, Hgs. cbn.
        eexists. split; [done|]. by rewrite (resolved_value_group v0 s g).
      - exists f. split; [done|]. rewrite resolved_value_other by done.
        symmetry. apply insert_id, Hf. by left. }
    destruct (IH f1) as (f' & Hres & Hlook); [done | | |].
    + intros k v Hkv. rewrite Hf1, lookup_insert_ne; [apply Hf; by right|].
      intros <-. apply Hk0. apply list_elem_of_fmap. by exists (k0, v).
    + intros k v s Hkv Hs. apply (Hg k v s); [by right | done].
    + exists f'. split; [done|]. intros k. rewrite fmap_cons. cbn.
      destruct (decide (k = k0)) as [->|Hne].
      * split; [|intros Hn; exfalso; apply Hn; by left]. intros _.
        rewrite (proj2 (Hlook k0) Hk0).
        rewrite Hf1, lookup_insert_eq, (Hf k0 v0) by by left. done.
      * destruct (Hlook k) as [Hin Hout].
        rewrite Hf1, lookup_insert_ne in Hin, Hout by done.
        split.
        -- intros [?|?]%elem_of_cons; [done | by apply Hin].
        -- intros Hn. apply Hout. intros ?. apply Hn. by right.
Qed.

Lemma iteritems_elem_of d k v : (k, v) ∈ iteritems d ↔ d !! k = Some v.
Proof. by rewrite iteritems_items, elem_of_map_to_list. Qed.

Lemma resolve_items_dict d :
  (∀ s, s ∈ group_ids (Dict d) → is_Some (group_of' s)) →
  items' (iteritems d) d = Good (value' <$> d).
Proof.
  intros Hg.
  destruct (resolve_items_Good (iteritems d) d) as (f' & -> & Hlook).
  - rewrite iteritems_items. apply NoDup_fst_map_to_list.
  - intros k v. by rewrite iteritems_elem_of.
  - intros k v s Hkv%iteritems_elem_of Hs. apply Hg. cbn.
    apply list_elem_of_omap. exists v. split; [|done].
    apply list_elem_of_fmap. exists (k, v). split; [done|].
    by apply elem_of_map_to_list.
  - f_equal. apply map_eq. intros k. rewrite lookup_fmap.
    destruct (d !! k) as [v|] eqn:Hk.
    + rewrite (proj1 (Hlook k)), Hk; [done|].
      apply list_elem_of_fmap. exists (k, v). split; [done|].
      by apply iteritems_elem_of.
    + rewrite (proj2 (Hlook k)), Hk; [done|].
      intros ([k' v] & -> & Hin%iteritems_elem_of)%list_elem_of_fmap.
      cbn in Hk. congruence.
Qed.

(** When every group looked up exists, the loop over [files] appends the
    expansion of each entry. *)
Lemma resolve_files_Good files resolved_files :
  (∀ f s, f ∈ files → s ∈ group_ids f → is_Some (group_of' s)) →
  files' files resolved_files
  = Good (resolved_files ++ concat (expansion' <$> files)).
Proof.
  revert resolved_files. induction files as [|f files IH];
    intros resolved_files Hg.
  - cbn. by rewrite app_nil_r.
  - assert (∀ f' s, f' ∈ files → s ∈ group_ids f' → is_Some (group_of' s))
      as Hg' by (intros f' s ?; apply Hg; by right).
    assert (∀ s, s ∈ group_ids f → is_Some (group_of' s))
      as Hf by (intros s; apply Hg; by left).
    rewrite fmap_cons. cbn [concat]. rewrite (assoc_L (++)).
    destruct f as [s|d|l|r]; cbn [resolve_files expansion].
    + destruct (is_group_id s) eqn:Hs; [|by rewrite IH].
      destruct (Hf s) as [g Hgs]; [cbn; rewrite Hs; by left|].
      rewrite get_group_group_of, Hgs. cbn.
      rewrite (group_of_truth _ _ Hgs). by destruct g; rewrite IH.
    + rewrite resolve_items_dict by done. cbn. by rewrite IH.
    + by rewrite IH.
    + by rewrite IH.
Qed.

(** An exception of the loop over the items names a group that is missing,
    or false, and that one of the items refers to. *)
Lemma resolve_items_Bad items f e :
  items' items f = Bad e →
  ∃ k v s, (k, v) ∈ items ∧ group_id_of v = Some s ∧ group_of' s = None
           ∧ e = NoGroup (group_name_of s).
Proof.
  revert f. induction items as [|[k v] rest IH]; intros f; [done|].
  rewrite resolve_items_cons.
  destruct (group_id_of v) as [s|] eqn:Hs.
  - rewrite get_group_group_of.
    destruct (group_of' s) as [g|] eqn:Hg; cbn.
    + intros (k' & v' & s' & Hin & H)%IH. exists k', v', s'.
      split; [by right | done].
    + intros [= <-]. exists k, v, s. split; [by left | done].
  - intros (k' & v' & s' & Hin & H)%IH. exists k', v', s'.
    split; [by right | done].
Qed.

Lemma resolve_files_Bad files resolved_files e :
  files' files resolved_files = Bad e →
  ∃ f s, f ∈ files ∧ s ∈ group_ids f ∧ group_of' s = None
         ∧ e = NoGroup (group_name_of s).
Proof.
  revert resolved_files. induction files as [|f files IH];
    intros resolved_files; [done|].
  assert (∀ acc, files' files acc = Bad e →
                 ∃ f' s, f' ∈ f :: files ∧ s ∈ group_ids f'
                         ∧ group_of' s = None ∧ e = NoGroup (group_name_of s))
    as Hrest.
  { intros acc (f' & s & Hin & H)%IH. exists f', s. split; [by right | done]. }
  destruct f as [s|d|l|r]; cbn [resolve_files]; [| |by apply Hrest..].
  - destruct (is_group_id s) eqn:Hs; [|by apply Hrest].
    rewrite get_group_group_of.
    destruct (group_of' s) as [g|] eqn:Hg; cbn.
    + rewrite (group_of_truth _ _ Hg). destruct g; by apply Hrest.
    + intros [= <-]. exists (Basestring s), s.
      split_and!; [by left | | done | done]. cbn. rewrite Hs. by left.
  - destruct (items' (iteritems d) d) as [d'|e'] eqn:Hd; cbn; [by apply Hrest|].
    intros [= <-].
    apply resolve_items_Bad in Hd as (k & v & s & Hin & Hs & Hg & ->).
    exists (Dict d), s. split_and!; [by left | | done | done].
    cbn. apply list_elem_of_omap. exists v. split; [|done].
    apply list_elem_of_fmap. exists (k, v). split; [done|].
    apply elem_of_map_to_list. by apply iteritems_elem_of.
Qed.
End get_build_target_facts.

(** X17: when the target exists with a [files] list and every group looked
    up exists and is not empty, [get_build_target] returns the two style
    entries as they are in the file, and for [files] the entries in order,
    each expanded: a group id replaced by the group, or by the entries of
    the group when it is a list; a dict with the group ids among its values
    replaced by their groups; any other entry as it is.  The order in which
    a dict is gone through does not matter. *)
Theorem get_build_target_resolves
    (other_truth : str → bool)
    (iteritems : gmap Z file_info → list (Z * file_info))
    (all_targets : targets_yaml) (targets_listing target_name : str)
    (target : gmap str file_info) (target_files : list file_info) :
  (∀ d, iteritems d ≡ₚ map_to_list d) →
  yaml_targets all_targets !! target_name = Some target →
  target !! lit "files" = Some (List target_files) →
  (∀ f s, f ∈ target_files → s ∈ group_ids f →
          is_Some (group_of other_truth all_targets s)) →
  get_build_target other_truth iteritems all_targets targets_listing target_name
  = Good {| entries := {| title_styles := yaml_title_styles all_targets;
                          relative_title_styles :=
                            yaml_relative_title_styles all_targets |};
            files := concat (expansion other_truth all_targets
                             <$> target_files) |}.
Proof.
  intros Hiter Htarget Hfiles Hgroups. unfold get_build_target.
  rewrite Htarget. rewrite bool_decide_eq_false_2.
  - rewrite Hfiles. by rewrite resolve_files_Good.
  - intros ->%map_size_empty_iff. by rewrite lookup_empty in Hfiles.
Qed.

Lemma get_build_target_resolves_witness :
  get_build_target (λ _, true) map_to_list sample_yaml
    (lit "targets.yaml") (lit "main")
  = Good {| entries := Target styles4 rel3;
            files := [Basestring (lit "intro.rst");
                      Basestring (lit "a.rst"); Basestring (lit "b.rst");
                      Dict {[ 1 := Basestring (lit "events.rst") ]}] |}.
Proof.
  rewrite (get_build_target_resolves (λ _, true) map_to_list sample_yaml
             (lit "targets.yaml") (lit "main")
             {[ lit "files" :=
                  List [Basestring (lit "intro.rst");
                        Basestring (lit "group:apis");
                        Dict {[ 1 := Basestring (lit "group:events") ]}] ]}
             [Basestring (lit "intro.rst"); Basestring (lit "group:apis");
              Dict {[ 1 := Basestring (lit "group:events") ]}]).
  - cbn [fmap list_fmap concat expansion]. unfold expansion.
    vm_compute. reflexivity.
  - done.
  - reflexivity.
  - reflexivity.
  - intros f s Hf Hs. rewrite !elem_of_cons, elem_of_nil in Hf.
    destruct Hf as [->|[->|[->|[]]]]; vm_compute in Hs.
    + by apply elem_of_nil in Hs.
    + apply list_elem_of_singleton in Hs as ->. vm_compute. by eexists.
    + apply list_elem_of_singleton in Hs as ->. vm_compute. by eexists.
Defined.

Lemma group_of_None other_truth all_targets s :
  group_of other_truth all_targets s = None →
  yaml_groups all_targets !! group_name_of s = None
  ∨ ∃ group, yaml_groups all_targets !! group_name_of s = Some group
             ∧ truth other_truth group = false.
Proof.
  unfold group_of.
  destruct (yaml_groups all_targets !! group_name_of s) as [g|]; [|by left].
  destruct (truth other_truth g) eqn:Ht; [done|]. right. by exists g.
Qed.

(** X18: each exception of [get_build_target] means what it says, and a
    little more.  "No target" is raised for a target that is missing or is
    an empty dict; "not a list" for a target whose [files] entry is missing
    or is not a list; "group doesn't exist" for a group that an entry of
    [files], or a value of a dict entry, refers to and that is missing from
    [groups] or is there but false, such as an empty list. *)
Theorem get_build_target_errors
    (other_truth : str → bool)
    (iteritems : gmap Z file_info → list (Z * file_info))
    (all_targets : targets_yaml) (targets_listing target_name : str)
    (e : config_error) :
  (∀ d, iteritems d ≡ₚ map_to_list d) →
  get_build_target other_truth iteritems all_targets targets_listing target_name
  = Bad e →
  match e with
  | NoTarget name listing =>
      name = target_name ∧ listing = targets_listing
      ∧ (yaml_targets all_targets !! target_name = None
         ∨ yaml_targets all_targets !! target_name = Some ∅)
  | FilesNotAList =>
      ∃ target,
        yaml_targets all_targets !! target_name = Some target ∧ target ≠ ∅
        ∧ ∀ target_files, target !! lit "files" ≠ Some (List target_files)
  | NoGroup group_name =>
      ∃ target target_files f s,
        yaml_targets all_targets !! target_name = Some target
        ∧ target !! lit "files" = Some (List target_files)
        ∧ f ∈ target_files ∧ s ∈ group_ids f
        ∧ group_name = group_name_of s
        ∧ (yaml_groups all_targets !! group_name = None
           ∨ ∃ group, yaml_groups all_targets !! group_name = Some group
                      ∧ truth other_truth group = false)
  end.
Proof.
  intros Hiter. unfold get_build_target.
  destruct (yaml_targets all_targets !! target_name) as [target|] eqn:Htarget;
    [|intros [= <-]; split_and!; [done | done | by left]].
  case_bool_decide as Hsize.
  { intros [= <-]. apply map_size_empty_iff in Hsize as ->.
    split_and!; [done | done | by right]. }
  assert (target ≠ ∅) as Hne
    by (intros ->; apply Hsize; apply map_size_empty).
  destruct (target !! lit "files") as [[s|d|target_files|r]|] eqn:Hfiles;
    try (intros [= <-]; exists target; split_and!; [done | done |];
         intros target_files'; rewrite Hfiles; done).
  destruct (resolve_files _ _ _ target_files []) as [resolved|e'] eqn:Hres;
    cbn; [done|].
  intros [= <-].
  apply (resolve_files_Bad _ _ _ Hiter) in Hres as (f & s & Hf & Hs & Hg & ->).
  exists target, target_files, f, s. split_and!; [done..|].
  by apply group_of_None.
Qed.

Lemma get_build_target_errors_witness :
  ∃ target target_files f s,
    yaml_targets empty_group_yaml !! lit "main" = Some target
    ∧ target !! lit "files" = Some (List target_files)
    ∧ f ∈ target_files ∧ s ∈ group_ids f
    ∧ lit "empty" = group_name_of s
    ∧ (yaml_groups empty_group_yaml !! lit "empty" = None
       ∨ ∃ group, yaml_groups empty_group_yaml !! lit "empty" = Some group
                  ∧ truth (λ _, true) group = false).
Proof.
  apply (get_build_target_errors (λ _, true) map_to_list empty_group_yaml
           (lit "targets.yaml") (lit "main") (NoGroup (lit "empty"))).
  - done.
  - reflexivity.
Defined.

Section no_groups.
Context (other_truth : str → bool) (all_targets : targets_yaml).

Lemma expansion_no_groups f :
  group_ids f = [] → expansion other_truth all_targets f = [f].
Proof.
  destruct f as [s|d|l|r]; cbn; try done.
  - by destruct (is_group_id s).
  - intros Hd. do 2 f_equal. apply map_eq. intros k. rewrite lookup_fmap.
    destruct (d !! k) as [v|] eqn:Hk; [|done]. cbn. f_equal.
    apply resolved_value_other.
    destruct (group_id_of v) as [s|] eqn:Hs; [|done].
    assert (s ∈ omap group_id_of (map_to_list d).*2) as Hin.
    { apply list_elem_of_omap. exists v. split; [|done].
      apply list_elem_of_fmap. exists (k, v). split; [done|].
      by apply elem_of_map_to_list. }
    rewrite Hd in Hin. by apply elem_of_nil in Hin.
Qed.

Lemma concat_expansion_no_groups target_files :
  Forall (λ f, group_ids f = []) target_files →
  concat (expansion other_truth all_targets <$> target_files) = target_files.
Proof.
  induction 1 as [|f target_files Hf _ IH]; [done|].
  rewrite fmap_cons. cbn [concat]. by rewrite IH, expansion_no_groups.
Qed.
End no_groups.

(** X19: a target whose [files] refer to no group, neither as entries nor
    as values of dict entries, is returned with its [files] unchanged. *)
Theorem get_build_target_without_groups
    (other_truth : str → bool)
    (iteritems : gmap Z file_info → list (Z * file_info))
    (all_targets : targets_yaml) (targets_listing target_name : str)
    (target : gmap str file_info) (target_files : list file_info) :
  (∀ d, iteritems d ≡ₚ map_to_list d) →
  yaml_targets all_targets !! target_name = Some target →
  target !! lit "files" = Some (List target_files) →
  Forall (λ f, group_ids f = []) target_files →
  get_build_target other_truth iteritems all_targets targets_listing target_name
  = Good {| entries := {| title_styles := yaml_title_styles all_targets;
                          relative_title_styles :=
                            yaml_relative_title_styles all_targets |};
            files := target_files |}.
Proof.
  intros Hiter Htarget Hfiles Hnone. unfold get_build_target.
  rewrite Htarget. rewrite bool_decide_eq_false_2.
  - rewrite Hfiles. rewrite resolve_files_Good by first [done |
      intros f s Hf Hs; rewrite Forall_forall in Hnone;
      rewrite (Hnone f Hf) in Hs; by apply elem_of_nil in Hs].
    cbn. by rewrite concat_expansion_no_groups.
  - intros ->%map_size_empty_iff. by rewrite lookup_empty in Hfiles.
Qed.

Lemma get_build_target_without_groups_witness :
  get_build_target (λ _, true) map_to_list no_group_yaml
    (lit "targets.yaml") (lit "main")
  = Good {| entries := Target styles4 rel3;
            files := [Basestring (lit "intro.rst");
                      List [Basestring (lit "group:apis")]] |}.
Proof.
  refine (get_build_target_without_groups (λ _, true) map_to_list
            no_group_yaml (lit "targets.yaml") (lit "main")
            {[ lit "files" :=
                 List [Basestring (lit "intro.rst");
                       List [Basestring (lit "group:apis")]] ]}
            [Basestring (lit "intro.rst"); List [Basestring (lit "group:apis")]]
            _ _ _ _).
  - done.
  - reflexivity.
  - reflexivity.
  - by repeat constructor.
Defined.

(** * Titles before and after a load *)

Lemma adjusted_lines_length styles title_level k prev lines :
  length (adjusted_lines styles title_level k prev lines) = length lines.
Proof.
  revert prev. induction lines as [|line rest IH]; intros prev; [done|].
  cbn [adjusted_lines]. destruct (underlines styles prev line); cbn;
    by rewrite IH.
Qed.

(** X20: for a style table without repeated entries, the text returned by
    a load has its titles on the lines where the file has them, and
    nowhere else; a title of local level [j] has the level that the
    subscript [title_level + j - k] designates, [k] being the local level
    of the first title: that number itself, or the length of the table
    more when it is negative. *)
Theorem load_keeps_title_lines
    (filename : str) (title_level : Z) (styles : list ascii)
    (first : str) (rest : list str) (text : str) :
  NoDup styles →
  load_with_adjusted_titles filename title_level styles (first :: rest)
  = Return text →
  ∃ out,
    text = join (first :: out)
    ∧ length out = length rest
    ∧ line_levels styles first out
      = fmap (M:=list)
          (fmap (M:=option)
             (λ j, position (length styles)
                     (title_level + j
                      - default 0 (head (title_levels styles first rest)))))
          (line_levels styles first rest).
Proof.
  intros Hnd (_ & _ & Hr & ->)%load_Return_inv.
  eexists. split_and!; [done | apply adjusted_lines_length |].
  by apply line_levels_adjusted.
Qed.

Lemma load_keeps_title_lines_witness :
  ∃ out,
    join [ln "Sub"; ln "==="; ln "Top"; ln "+++"] = join (ln "Sub" :: out)
    ∧ length out = length [ln "---"; ln "Top"; ln "==="]
    ∧ line_levels styles4 (ln "Sub") out
      = fmap (M:=list)
          (fmap (M:=option)
             (λ j, position (length styles4)
                     (0 + j
                      - default 0 (head (title_levels styles4 (ln "Sub")
                                           [ln "---"; ln "Top"; ln "==="])))))
          (line_levels styles4 (ln "Sub") [ln "---"; ln "Top"; ln "==="]).
Proof.
  apply (load_keeps_title_lines (lit "f.rst") 0 styles4 (ln "Sub")
           [ln "---"; ln "Top"; ln "==="]); [exact styles4_NoDup | reflexivity].
Defined.
